(** * AuraSync: session state, history store and generation orchestration

    Shallow embedding of [components/HistoryManager.tsx] (the
    [useHistoryManager] hook), of the handlers of [App.tsx] and of
    [services/geminiService.ts].

    React state is a record; a handler is a function of the render whose
    values its closure captured (read by name in the source) and of the
    live state that its setters update. *)

From Stdlib Require Import ZArith List Bool Lia.
From Stdlib Require Import PrimFloat.
From Stdlib Require Import Ascii.
From stdpp Require Import base list strings pretty.

Open Scope string_scope.
Open Scope list_scope.
Open Scope Z_scope.

(** ** JavaScript truthiness of [string | null] and of [string] *)

Definition truthyStr (s : string) : bool := negb (String.eqb s "").

Definition truthy (o : option string) : bool :=
  match o with
  | Some s => truthyStr s
  | None => false
  end.

(** ** Data model *)

Module Product.
Record t := mk {
  id : string;
  image : option string;
  isGenerating : bool
}.
End Product.

Module HistoryState.
Record t := mk {
  id : string;
  timestamp : Z;
  generatedImage : option string;
  prompt : string;
  roomImage : option string;
  products : list Product.t;
  isInitialGeneration : bool
}.
End HistoryState.

(** The [currentState] object that [App] rebuilds on every render and
    hands to the hook. *)
Module CurrentState.
Record t := mk {
  generatedImage : option string;
  prompt : string;
  roomImage : option string;
  products : list Product.t;
  isInitialGeneration : bool
}.
End CurrentState.

#[global] Instance Product_eq_dec : EqDecision Product.t.
Proof. solve_decision. Defined.

#[global] Instance CurrentState_eq_dec : EqDecision CurrentState.t.
Proof. solve_decision. Defined.

(** ** The history hook, [useHistoryManager] *)

(** [p => ({ ...p })] *)
Definition copyProduct (p : Product.t) : Product.t :=
  Product.mk (Product.id p) (Product.image p) (Product.isGenerating p).

(** The [newState] object of [saveToHistory]; [Date.now()] is read twice,
    once for the id and once for the timestamp. *)
Definition newState (currentState : CurrentState.t) (nowId nowTs : Z)
  : HistoryState.t :=
  HistoryState.mk
    ("state-" +:+ pretty nowId)
    nowTs
    (CurrentState.generatedImage currentState)
    (CurrentState.prompt currentState)
    (CurrentState.roomImage currentState)
    (map copyProduct (CurrentState.products currentState))
    (CurrentState.isInitialGeneration currentState).

(** [newHistory.splice(currentIndex + 1)] under the guard
    [currentIndex >= 0]: everything from that index on is removed. *)
Definition spliceAfter (currentIndex : Z) (newHistory : list HistoryState.t)
  : list HistoryState.t :=
  if 0 <=? currentIndex then take (Z.to_nat (currentIndex + 1)) newHistory
  else newHistory.

(** [if (newHistory.length > maxHistorySize) newHistory.shift()] *)
Definition limitSize (maxHistorySize : nat) (newHistory : list HistoryState.t)
  : list HistoryState.t :=
  if (maxHistorySize <? length newHistory)%nat then drop 1 newHistory
  else newHistory.

(** [saveToHistory]. [currentState] and [currentIndex] are the values
    captured by the closure; [prev] is the live array handed to the
    updater of [setHistory].  [None]: the guard returned and no state was
    set.  [Some (h, i)]: [setHistory] stores [h] and [setCurrentIndex]
    stores [i]. *)
Definition saveToHistory (maxHistorySize : nat)
    (currentState : CurrentState.t) (currentIndex : Z) (nowId nowTs : Z)
    (prev : list HistoryState.t) : option (list HistoryState.t * Z) :=
  if negb (truthy (CurrentState.generatedImage currentState)) then None
  else
    let newHistory := spliceAfter currentIndex prev in
    let newHistory := newHistory ++ [newState currentState nowId nowTs] in
    let newHistory := limitSize maxHistorySize newHistory in
    Some (newHistory, Z.of_nat (length newHistory) - 1).

(** The two pieces of hook state. *)
Record Store := mkStore {
  history : list HistoryState.t;
  currentIndex : Z
}.

Definition emptyStore : Store := mkStore [] (-1).

Definition canUndo (st : Store) : bool := 0 <? currentIndex st.
Definition canRedo (st : Store) : bool :=
  currentIndex st <? Z.of_nat (length (history st)) - 1.
Definition hasHistory (st : Store) : bool := (0 <? length (history st))%nat.
Definition historyLength (st : Store) : nat := length (history st).

(** [history[newIndex]]: [undefined] out of range. *)
Definition entryAt (h : list HistoryState.t) (i : Z) : option HistoryState.t :=
  if i <? 0 then None else h !! Z.to_nat i.

(** [undo] and [redo] of the render that sees [st]: the new store and the
    argument passed to [onStateRestore], or [None] when the guard fails
    and nothing is called. *)
Definition undo (st : Store) : Store * option (option HistoryState.t) :=
  if 0 <? currentIndex st then
    let newIndex := currentIndex st - 1 in
    (mkStore (history st) newIndex, Some (entryAt (history st) newIndex))
  else (st, None).

Definition redo (st : Store) : Store * option (option HistoryState.t) :=
  if currentIndex st <? Z.of_nat (length (history st)) - 1 then
    let newIndex := currentIndex st + 1 in
    (mkStore (history st) newIndex, Some (entryAt (history st) newIndex))
  else (st, None).

Definition clearHistory (st : Store) : Store := mkStore [] (-1).

(** A call of [saveToHistory] whose closure captured the cursor
    [captured] (that of the render it was created in) against the live
    store [st]. *)
Definition saveFrom (maxHistorySize : nat) (currentState : CurrentState.t)
    (captured : Z) (nowId nowTs : Z) (st : Store) : Store :=
  match saveToHistory maxHistorySize currentState captured nowId nowTs
          (history st) with
  | Some (h, i) => mkStore h i
  | None => st
  end.




(** Store states the hook can be in: from the empty store by
    [saveToHistory] (from the closure of any render), [undo], [redo] and
    [clearHistory]. *)
Inductive reachable (maxHistorySize : nat) : Store -> Prop :=
  | reach_init : reachable maxHistorySize emptyStore
  | reach_save st cs captured nowId nowTs :
      reachable maxHistorySize st ->
      reachable maxHistorySize
        (saveFrom maxHistorySize cs captured nowId nowTs st)
  | reach_undo st :
      reachable maxHistorySize st -> reachable maxHistorySize (fst (undo st))
  | reach_redo st :
      reachable maxHistorySize st -> reachable maxHistorySize (fst (redo st))
  | reach_clear st :
      reachable maxHistorySize st -> reachable maxHistorySize (clearHistory st).

(** The last [k] elements of a list. *)
Definition lastN {A} (k : nat) (l : list A) : list A :=
  drop (length l - k)%nat l.

(** ** The Gemini service, [services/geminiService.ts] *)

(** What a [catch] clause receives: an [Error] with its message, or any
    other thrown value. *)
Inductive Thrown :=
  | ErrorObj (message : string)
  | NonError.

(** How an awaited promise settles. *)
Inductive Settled (A : Type) :=
  | Resolved (a : A)
  | Rejected (e : Thrown).
Arguments Resolved {A} a.
Arguments Rejected {A} e.

(** One element of [candidates[0].content.parts]: [part.inlineData?.data]
    and [part.text]. *)
Record Part := mkPart {
  inlineData : option string;
  text : option string
}.

Record PromptFeedback := mkPromptFeedback {
  blockReason : option string;
  blockReasonMessage : option string
}.

(** The response of [ai.models.generateContent]: the parts of each
    candidate (no [candidates] field and an empty array are the same to
    the code) and [promptFeedback]. *)
Record Response := mkResponse {
  candidates : list (list Part);
  promptFeedback : option PromptFeedback
}.

(** The behaviour of the remote service on one call. *)
Inductive ApiOutcome :=
  | Throws (e : Thrown)
  | Responds (response : Response).

Inductive Modality := IMAGE | TEXT.

(** An element of the [parts] of a request: the part made by
    [dataUrlToGeminiPart] from a data URL (which only splits strings and
    cannot throw), or [{ text }]. *)
Inductive InputPart :=
  | InlineImage (dataUrl : string)
  | TextPart (text : string).

(** One call of [ai.models.generateContent]. *)
Record ApiCall := mkApiCall {
  model : string;
  parts : list InputPart;
  responseModalities : list Modality
}.

Definition editModel : string := "gemini-2.5-flash-image-preview".
Definition imageGenModel : string := "gemini-2.5-flash-image-preview".

(** [`${x}`] of a [string | undefined]. *)
Definition templ (o : option string) : string :=
  match o with
  | Some s => s
  | None => "undefined"
  end.

(** The rethrow of the outer [catch] of both service functions. *)
Definition wrapError (unknown : string) (e : Thrown) : Thrown :=
  match e with
  | ErrorObj message => ErrorObj ("Gemini API Error: " +:+ message)
  | NonError => ErrorObj unknown
  end.

(** The first part with image data, as the [for] loop of
    [generateSourceImage] returns it. *)
Fixpoint firstImage (ps : list Part) : option string :=
  match ps with
  | [] => None
  | part :: ps =>
      if truthy (inlineData part) then inlineData part else firstImage ps
  end.

Definition generateSourceImage_call (prompt : string) : ApiCall :=
  mkApiCall imageGenModel [TextPart prompt] [IMAGE].

(** [generateSourceImage], given what the service does on its call; the
    prompt only shapes the request and the aspect ratio is not used. *)
Definition generateSourceImage (o : ApiOutcome) : Settled string :=
  let unknown := "An unknown error occurred while generating the image." in
  match o with
  | Throws e => Rejected (wrapError unknown e)
  | Responds response =>
      match
        match candidates response with
        | [] => None
        | ps :: _ => firstImage ps
        end
      with
      | Some data => Resolved ("data:image/png;base64," +:+ data)
      | None =>
          Rejected (wrapError unknown
            (ErrorObj "Image generation failed: The API did not return image data."))
      end
  end.

Record GenerateVisualParams := mkParams {
  gv_prompt : string;
  gv_roomImage : option string;
  gv_productImages : list (option string);
  gv_baseImage : option string
}.

Record GenerateVisualResult := mkResult {
  res_image : option string;
  res_text : option string
}.

(** The loop over [candidates[0].content.parts] of [generateVisual]:
    the last image data and the last text win. *)
Definition scanParts (ps : list Part) : option string * option string :=
  fold_left
    (fun acc part =>
       if truthy (inlineData part) then (inlineData part, snd acc)
       else if truthy (text part) then (fst acc, text part)
       else acc)
    ps (None, None).

Definition scanResponse (response : Response) : option string * option string :=
  match candidates response with
  | [] => (None, None)
  | ps :: _ => scanParts ps
  end.

(** [if (x) parts.push(dataUrlToGeminiPart(x))] *)
Definition imagePart (o : option string) : list InputPart :=
  match o with
  | Some dataUrl => if truthyStr dataUrl then [InlineImage dataUrl] else []
  | None => []
  end.

(** The [parts] of the multimodal request: the base image when there is
    one, else the room image and the product images; then the prompt. *)
Definition multimodalParts (p : GenerateVisualParams) : list InputPart :=
  (if truthy (gv_baseImage p) then imagePart (gv_baseImage p)
   else imagePart (gv_roomImage p) ++ flat_map imagePart (gv_productImages p))
  ++ [TextPart (gv_prompt p)].

Definition enhancedPrompt (prompt : string) : string :=
  "Create a professional interior design visualization. " +:+ prompt +:+
  ". 
    Generate a high-quality, realistic interior design image with proper lighting, composition, and professional photography style.".

Definition multimodal_call (p : GenerateVisualParams) : ApiCall :=
  mkApiCall editModel (multimodalParts p) [IMAGE; TEXT].

Definition textOnly_call (p : GenerateVisualParams) : ApiCall :=
  mkApiCall imageGenModel [TextPart (enhancedPrompt (gv_prompt p))] [IMAGE].

(** Stage 1 of [generateVisual], the inner [try]: [Some] result when the
    multimodal response carries image data, [None] when it threw or
    carried none, and the code goes on to the text-only request. *)
Definition multimodalStage (o1 : ApiOutcome) : option GenerateVisualResult :=
  match o1 with
  | Throws _ => None
  | Responds response =>
      let '(resultImage, resultText) := scanResponse response in
      if truthy resultImage then Some (mkResult resultImage resultText)
      else None
  end.

(** Stage 2 of [generateVisual] with the outer [catch]. *)
Definition textOnlyStage (o2 : ApiOutcome) : Settled GenerateVisualResult :=
  let unknown :=
    "An unknown error occurred while communicating with the Gemini API." in
  match o2 with
  | Throws e => Rejected (wrapError unknown e)
  | Responds response =>
      let '(resultImage, resultText) := scanResponse response in
      if negb (truthy resultImage) && negb (truthy resultText) then
        match promptFeedback response with
        | Some fb =>
            if truthy (blockReason fb) then
              Rejected (wrapError unknown
                (ErrorObj ("Request was blocked: " +:+ templ (blockReason fb)
                           +:+ " - " +:+ templ (blockReasonMessage fb))))
            else
              Resolved (mkResult resultImage
                (Some "The model did not return any content. Try adjusting your prompt."))
        | None =>
            Resolved (mkResult resultImage
              (Some "The model did not return any content. Try adjusting your prompt."))
        end
      else Resolved (mkResult resultImage resultText)
  end.

(** [generateVisual]: [o1] is what the service does on the multimodal
    request and [o2] what it does on the text-only one, which is only
    sent when stage 1 gave no image.  The result comes with the calls
    made, in order. *)
Definition generateVisual (p : GenerateVisualParams) (o1 o2 : ApiOutcome)
  : Settled GenerateVisualResult * list ApiCall :=
  match multimodalStage o1 with
  | Some r => (Resolved r, [multimodal_call p])
  | None => (textOnlyStage o2, [multimodal_call p; textOnly_call p])
  end.

(** ** The state of [App] *)

Module App.
(** The [useState] cells of [App], and [store] for the two cells of the
    hook it mounts. *)
Record t := mk {
  roomImage : option string;
  products : list Product.t;
  prompt : string;
  generatedImage : option string;
  isLoading : bool;
  error : option string;
  isInitialGeneration : bool;
  isGeneratingRoom : bool;
  loadingProgress : float;
  loadingStatus : string;
  showLoadingProgress : bool;
  store : Store
}.
End App.

Definition setRoomImage (v : option string) (s : App.t) : App.t :=
  App.mk v (App.products s) (App.prompt s) (App.generatedImage s)
    (App.isLoading s) (App.error s) (App.isInitialGeneration s)
    (App.isGeneratingRoom s) (App.loadingProgress s) (App.loadingStatus s)
    (App.showLoadingProgress s) (App.store s).

Definition setProducts (v : list Product.t) (s : App.t) : App.t :=
  App.mk (App.roomImage s) v (App.prompt s) (App.generatedImage s)
    (App.isLoading s) (App.error s) (App.isInitialGeneration s)
    (App.isGeneratingRoom s) (App.loadingProgress s) (App.loadingStatus s)
    (App.showLoadingProgress s) (App.store s).

Definition setPrompt (v : string) (s : App.t) : App.t :=
  App.mk (App.roomImage s) (App.products s) v (App.generatedImage s)
    (App.isLoading s) (App.error s) (App.isInitialGeneration s)
    (App.isGeneratingRoom s) (App.loadingProgress s) (App.loadingStatus s)
    (App.showLoadingProgress s) (App.store s).

Definition setGeneratedImage (v : option string) (s : App.t) : App.t :=
  App.mk (App.roomImage s) (App.products s) (App.prompt s) v
    (App.isLoading s) (App.error s) (App.isInitialGeneration s)
    (App.isGeneratingRoom s) (App.loadingProgress s) (App.loadingStatus s)
    (App.showLoadingProgress s) (App.store s).

Definition setIsLoading (v : bool) (s : App.t) : App.t :=
  App.mk (App.roomImage s) (App.products s) (App.prompt s)
    (App.generatedImage s) v (App.error s) (App.isInitialGeneration s)
    (App.isGeneratingRoom s) (App.loadingProgress s) (App.loadingStatus s)
    (App.showLoadingProgress s) (App.store s).

Definition setError (v : option string) (s : App.t) : App.t :=
  App.mk (App.roomImage s) (App.products s) (App.prompt s)
    (App.generatedImage s) (App.isLoading s) v (App.isInitialGeneration s)
    (App.isGeneratingRoom s) (App.loadingProgress s) (App.loadingStatus s)
    (App.showLoadingProgress s) (App.store s).

Definition setIsInitialGeneration (v : bool) (s : App.t) : App.t :=
  App.mk (App.roomImage s) (App.products s) (App.prompt s)
    (App.generatedImage s) (App.isLoading s) (App.error s) v
    (App.isGeneratingRoom s) (App.loadingProgress s) (App.loadingStatus s)
    (App.showLoadingProgress s) (App.store s).

Definition setIsGeneratingRoom (v : bool) (s : App.t) : App.t :=
  App.mk (App.roomImage s) (App.products s) (App.prompt s)
    (App.generatedImage s) (App.isLoading s) (App.error s)
    (App.isInitialGeneration s) v (App.loadingProgress s)
    (App.loadingStatus s) (App.showLoadingProgress s) (App.store s).

Definition setLoadingProgress (v : float) (s : App.t) : App.t :=
  App.mk (App.roomImage s) (App.products s) (App.prompt s)
    (App.generatedImage s) (App.isLoading s) (App.error s)
    (App.isInitialGeneration s) (App.isGeneratingRoom s) v
    (App.loadingStatus s) (App.showLoadingProgress s) (App.store s).

Definition setLoadingStatus (v : string) (s : App.t) : App.t :=
  App.mk (App.roomImage s) (App.products s) (App.prompt s)
    (App.generatedImage s) (App.isLoading s) (App.error s)
    (App.isInitialGeneration s) (App.isGeneratingRoom s)
    (App.loadingProgress s) v (App.showLoadingProgress s) (App.store s).

Definition setShowLoadingProgress (v : bool) (s : App.t) : App.t :=
  App.mk (App.roomImage s) (App.products s) (App.prompt s)
    (App.generatedImage s) (App.isLoading s) (App.error s)
    (App.isInitialGeneration s) (App.isGeneratingRoom s)
    (App.loadingProgress s) (App.loadingStatus s) v (App.store s).

(** [setHistory] and [setCurrentIndex] of the hook. *)
Definition setStore (v : Store) (s : App.t) : App.t :=
  App.mk (App.roomImage s) (App.products s) (App.prompt s)
    (App.generatedImage s) (App.isLoading s) (App.error s)
    (App.isInitialGeneration s) (App.isGeneratingRoom s)
    (App.loadingProgress s) (App.loadingStatus s)
    (App.showLoadingProgress s) v.

(** The [currentState] object of a render. *)
Definition currentStateOf (r : App.t) : CurrentState.t :=
  CurrentState.mk (App.generatedImage r) (App.prompt r) (App.roomImage r)
    (App.products r) (App.isInitialGeneration r).

(** The default [maxHistorySize = 3]: [App] passes none. *)
Definition maxHistorySize : nat := 3.

(** ** Handlers of [App] *)

(** The [onStateRestore] callback that [App] gives to the hook. *)
Definition onStateRestore (state : HistoryState.t) (s : App.t) : App.t :=
  setError None
    (setIsInitialGeneration (HistoryState.isInitialGeneration state)
      (setProducts (HistoryState.products state)
        (setRoomImage (HistoryState.roomImage state)
          (setPrompt (HistoryState.prompt state)
            (setGeneratedImage (HistoryState.generatedImage state) s))))).

(** [undo] and [redo] as the buttons call them, from the latest render:
    [setCurrentIndex(newIndex)], then [onStateRestore(history[newIndex])],
    which throws on [undefined] before it sets anything. *)
Definition restoreWith (r : Store * option (option HistoryState.t))
    (s : App.t) : App.t :=
  match r with
  | (st, Some (Some state)) => onStateRestore state (setStore st s)
  | (st, Some None) => setStore st s
  | (_, None) => s
  end.

Definition undoClick (s : App.t) : App.t := restoreWith (undo (App.store s)) s.
Definition redoClick (s : App.t) : App.t := restoreWith (redo (App.store s)) s.
Definition clearHistoryClick (s : App.t) : App.t :=
  setStore (clearHistory (App.store s)) s.

(** [saveToHistory] of the render [r], run against the live state [s]. *)
Definition saveToHistoryOf (r : App.t) (nowId nowTs : Z) (s : App.t) : App.t :=
  setStore
    (saveFrom maxHistorySize (currentStateOf r) (currentIndex (App.store r))
       nowId nowTs (App.store s))
    s.

Definition handleAddProduct (now : Z) (s : App.t) : App.t :=
  setProducts
    (App.products s ++ [Product.mk ("prod-" +:+ pretty now) None false]) s.

Definition handleRemoveProduct (id : string) (s : App.t) : App.t :=
  setProducts
    (List.filter (fun p => negb (String.eqb (Product.id p) id))
       (App.products s)) s.

Definition handleUpdateProductImage (id image : string) (s : App.t) : App.t :=
  setProducts
    (map (fun p =>
            if String.eqb (Product.id p) id
            then Product.mk (Product.id p) (Some image) (Product.isGenerating p)
            else p)
         (App.products s)) s.

(** [prev.map(p => p.id === id ? { ...p, isGenerating: b } : p)] *)
Definition setGenerating (id : string) (b : bool) (s : App.t) : App.t :=
  setProducts
    (map (fun p =>
            if String.eqb (Product.id p) id
            then Product.mk (Product.id p) (Product.image p) b
            else p)
         (App.products s)) s.

(** [handlePromptChange]: [error] is the value of the render [r]. *)
Definition handlePromptChange (newPrompt : string) (r s : App.t) : App.t :=
  let s := setPrompt newPrompt s in
  if truthy (App.error r) then setError None s else s.

(** [e instanceof Error ? e.message : 'An unknown error occurred.'] *)
Definition errorMessage (e : Thrown) : string :=
  match e with
  | ErrorObj message => message
  | NonError => "An unknown error occurred."
  end.

(** [handleGenerateProduct] up to its [await]: the new state and whether
    [generateSourceImage] was called. *)
Definition handleGenerateProduct (id genPrompt : string) (index : nat)
    (s : App.t) : App.t * bool :=
  if negb (truthyStr genPrompt) then
    (setError
       (Some ("Please enter a prompt to generate Product " +:+
              pretty (index + 1)%nat +:+ "."))
       s, false)
  else (setError None (setGenerating id true s), true).

(** [handleGenerateProduct] from its [await] on: [try] or [catch], then
    [finally]. *)
Definition handleGenerateProduct_resume (id : string) (index : nat)
    (result : Settled string) (s : App.t) : App.t :=
  let s :=
    match result with
    | Resolved image => handleUpdateProductImage id image s
    | Rejected e =>
        setError
          (Some ("Error generating product " +:+ pretty (index + 1)%nat +:+
                 ": " +:+ errorMessage e))
          s
    end in
  setGenerating id false s.

Definition handleGenerateRoom (genPrompt : string) (s : App.t) : App.t * bool :=
  if negb (truthyStr genPrompt) then
    (setError (Some "Please enter a prompt to generate the room image.") s,
     false)
  else (setError None (setIsGeneratingRoom true s), true).

Definition handleGenerateRoom_resume (result : Settled string) (s : App.t)
  : App.t :=
  let s :=
    match result with
    | Resolved image => setRoomImage (Some image) s
    | Rejected e =>
        setError (Some ("Error generating room: " +:+ errorMessage e)) s
    end in
  setIsGeneratingRoom false s.

Definition validProducts (r : App.t) : list Product.t :=
  List.filter (fun p => truthy (Product.image p)) (App.products r).

Definition msgMissingInputs : string :=
  "Please provide a room image and at least one product image.".
Definition msgMissingBase : string :=
  "An initial image must be generated before you can refine it.".
Definition msgMissingPrompt : string :=
  "Please enter a prompt to generate the design.".

(** The three guards at the head of [handleGeneration], on the values of
    the render [r]: the message given to [setError] before the early
    [return], if any. *)
Definition validate (r : App.t) : option string :=
  if App.isInitialGeneration r &&
     (negb (truthy (App.roomImage r)) || (length (validProducts r) =? 0)%nat)
  then Some msgMissingInputs
  else if negb (App.isInitialGeneration r) && negb (truthy (App.generatedImage r))
  then Some msgMissingBase
  else if negb (truthyStr (App.prompt r)) then Some msgMissingPrompt
  else None.

(** The argument of [generateVisual], built from the render [r]. *)
Definition generateVisualParamsOf (r : App.t) : GenerateVisualParams :=
  mkParams (App.prompt r)
    (if App.isInitialGeneration r then App.roomImage r else None)
    (if App.isInitialGeneration r then map Product.image (validProducts r)
     else [])
    (if App.isInitialGeneration r then None else App.generatedImage r).

(** [simulateProgress] up to the two [setInterval]. *)
Definition simulateProgress (s : App.t) : App.t :=
  setLoadingStatus "Initializing..."
    (setLoadingProgress 0%float (setShowLoadingProgress true s)).

(** The updater of the 200 ms interval; [random] is [Math.random()]. *)
Definition progressUpdater (random prev : float) : float :=
  if PrimFloat.leb 90 prev then prev
  else PrimFloat.add prev (PrimFloat.mul random 15).

Definition progressTick (random : float) (s : App.t) : App.t :=
  setLoadingProgress (progressUpdater random (App.loadingProgress s)) s.

Definition statusMessages : list string :=
  [ "Analyzing your images...";
    "Understanding your prompt...";
    "Generating design concepts...";
    "Rendering your vision...";
    "Adding final touches...";
    "Almost ready..." ].

(** The callback of the 1000 ms interval, at the value [statusIndex] of
    its counter. *)
Definition statusTick (statusIndex : nat) (s : App.t) : App.t :=
  setLoadingStatus (default "Finalizing..." (statusMessages !! statusIndex)) s.

(** The [finally] of [simulateProgress], after the two [clearInterval]
    and before the [setTimeout] of 500 ms. *)
Definition simulateProgress_finally (s : App.t) : App.t :=
  setLoadingStatus "Complete!" (setLoadingProgress 100%float s).

(** [handleGeneration] of the render [r] up to the [await] of
    [generateVisual]: the new state and the request sent, if any. *)
Definition handleGeneration (r s : App.t)
  : App.t * option GenerateVisualParams :=
  match validate r with
  | Some msg => (setError (Some msg) s, None)
  | None =>
      (simulateProgress (setError None (setIsLoading true s)),
       Some (generateVisualParamsOf r))
  end.

(** The rest of the callback of [handleGeneration], from the [await] on:
    the new state, and whether [setTimeout(saveToHistory, 100)] was
    called. *)
Definition handleGeneration_resume (result : Settled GenerateVisualResult)
    (s : App.t) : App.t * bool :=
  let '(s, scheduled) :=
    match result with
    | Resolved result =>
        if truthy (res_image result) then
          (setPrompt ""
             (setIsInitialGeneration false
                (setGeneratedImage
                   (Some ("data:image/png;base64," +:+ templ (res_image result)))
                   s)),
           true)
        else
          (setError
             (Some (if truthy (res_text result) then templ (res_text result)
                    else "Failed to generate image. The model may not have returned an image."))
             s,
           false)
    | Rejected e => (setError (Some ("Error: " +:+ errorMessage e)) s, false)
    end in
  (setIsLoading false s, scheduled).

(** Modelled from the spec: [INITIAL_PRODUCT_IMAGE] of [constants.ts],
    which is not among the sources.  The spec starts and resets the
    session with one empty item, one whose image is absent. *)
Definition INITIAL_PRODUCT_IMAGE : option string := None.

Section WithConstants.

(** [INITIAL_ROOM_IMAGE] of [constants.ts], the default scene: its value
    is not among the sources. *)
Variable INITIAL_ROOM_IMAGE : option string.

(** The state of the first render; [now] is the [Date.now()] of the
    product id. *)
Definition initialApp (now : Z) : App.t :=
  App.mk INITIAL_ROOM_IMAGE
    [Product.mk ("prod-" +:+ pretty now) INITIAL_PRODUCT_IMAGE false]
    "" None false None true false 0%float "Initializing..." false emptyStore.

(** [resetExperience], up to its [setTimeout(() => setPrompt(''), 0)]. *)
Definition resetExperience (now : Z) (s : App.t) : App.t :=
  setIsLoading false
    (setError None
      (setIsInitialGeneration true
        (setGeneratedImage None
          (setProducts
             [Product.mk ("prod-" +:+ pretty now) INITIAL_PRODUCT_IMAGE false]
             (setRoomImage INITIAL_ROOM_IMAGE
                (clearHistoryClick s)))))).

(** ** The running application

    One state of the page: the live React state, the closure that
    [useCallback] keeps for [handleGeneration], the requests in flight,
    the timers, and (as a trace) the calls made to the service.  An event
    handler runs to completion and React renders before the next event,
    so the latest render sees [app]. *)

Inductive Request :=
  | ProductRequest (id : string) (index : nat)
  | RoomRequest
  | CompositeRequest (closure : App.t).

(** [setInterval] handles of [simulateProgress], by the request they
    belong to; the status interval carries its [statusIndex]. *)
Inductive Interval :=
  | ProgressInterval (req : nat)
  | StatusInterval (req : nat) (statusIndex : nat).

(** Pending [setTimeout] callbacks. *)
Inductive Timeout :=
  | SaveToHistory (closure : App.t)
  | HideProgress
  | ClearPrompt.


(** [app]: the live state.  [hgen]: the render whose values the memoised
    [handleGeneration] reads, and with them the [saveToHistory] of that
    render.  [inflight]: the awaited service requests, by id.
    [apiCalls]: every [generateContent] call made so far. *)
Record Sys := mkSys {
  app : App.t;
  hgen : App.t;
  nextReq : nat;
  inflight : list (nat * Request);
  intervals : list Interval;
  timeouts : list Timeout;
  apiCalls : list ApiCall
}.

Definition withApp (a : App.t) (s : Sys) : Sys :=
  mkSys a (hgen s) (nextReq s) (inflight s) (intervals s) (timeouts s)
    (apiCalls s).

Inductive Event :=
  | PromptChange (newPrompt : string)
  | UploadRoom (image : string)
  | AddProduct (now : Z)
  | RemoveProduct (id : string)
  | UploadProduct (id image : string)
  | GenerateProduct (id genPrompt : string) (index : nat)
  | GenerateRoom (genPrompt : string)
  | Submit
  | Undo
  | Redo
  | ClearHistory
  | Reset (now : Z)
  | SourceSettles (req : nat) (o : ApiOutcome)
  | CompositeSettles (req : nat) (o1 o2 : ApiOutcome)
  | ProgressTicks (req : nat) (random : float)
  | StatusTicks (req : nat)
  | TimeoutFires (k : nat) (nowId nowTs : Z).

Definition requestOf (req : nat) (s : Sys) : option Request :=
  snd <$> List.find (fun x => Nat.eqb (fst x) req) (inflight s).

Definition dropRequest (req : nat) (l : list (nat * Request))
  : list (nat * Request) :=
  List.filter (fun x => negb (Nat.eqb (fst x) req)) l.

Definition intervalReq (i : Interval) : nat :=
  match i with
  | ProgressInterval req => req
  | StatusInterval req _ => req
  end.

(** The two [clearInterval] of the request [req]. *)
Definition clearIntervals (req : nat) (l : list Interval) : list Interval :=
  List.filter (fun i => negb (Nat.eqb (intervalReq i) req)) l.

Definition hasProgressInterval (req : nat) (l : list Interval) : bool :=
  existsb (fun i => match i with
                    | ProgressInterval r => Nat.eqb r req
                    | StatusInterval _ _ => false
                    end) l.

Definition statusIndexOf (req : nat) (l : list Interval) : option nat :=
  match List.find (fun i => match i with
                            | StatusInterval r _ => Nat.eqb r req
                            | ProgressInterval _ => false
                            end) l with
  | Some (StatusInterval _ n) => Some n
  | _ => None
  end.

(** [statusIndex++] *)
Definition bumpStatus (req : nat) (l : list Interval) : list Interval :=
  map (fun i => match i with
                | StatusInterval r n =>
                    if Nat.eqb r req then StatusInterval r (S n) else i
                | ProgressInterval _ => i
                end) l.

Definition startRequest (r : Request) (call : ApiCall) (a : App.t) (s : Sys)
  : Sys :=
  mkSys a (hgen s) (S (nextReq s)) (inflight s ++ [(nextReq s, r)])
    (intervals s) (timeouts s) (apiCalls s ++ [call]).

(** The handlers, as the page runs them on an event.  The buttons'
    [disabled] states are not modelled: an event is taken in any state.
    A settle, tick or timeout event for something that is not pending
    does nothing. *)
Definition handle (s : Sys) (ev : Event) : Sys :=
  match ev with
  | PromptChange newPrompt =>
      withApp (handlePromptChange newPrompt (app s) (app s)) s
  | UploadRoom image => withApp (setRoomImage (Some image) (app s)) s
  | AddProduct now => withApp (handleAddProduct now (app s)) s
  | RemoveProduct id => withApp (handleRemoveProduct id (app s)) s
  | UploadProduct id image =>
      withApp (handleUpdateProductImage id image (app s)) s
  | GenerateProduct id genPrompt index =>
      match handleGenerateProduct id genPrompt index (app s) with
      | (a, true) =>
          startRequest (ProductRequest id index)
            (generateSourceImage_call genPrompt) a s
      | (a, false) => withApp a s
      end
  | GenerateRoom genPrompt =>
      match handleGenerateRoom genPrompt (app s) with
      | (a, true) =>
          startRequest RoomRequest (generateSourceImage_call genPrompt) a s
      | (a, false) => withApp a s
      end
  | Submit =>
      match handleGeneration (hgen s) (app s) with
      | (a, Some p) =>
          let s' :=
            startRequest (CompositeRequest (hgen s)) (multimodal_call p) a s in
          mkSys (app s') (hgen s') (nextReq s') (inflight s')
            (intervals s' ++
               [ProgressInterval (nextReq s); StatusInterval (nextReq s) 0])
            (timeouts s') (apiCalls s')
      | (a, None) => withApp a s
      end
  | Undo => withApp (undoClick (app s)) s
  | Redo => withApp (redoClick (app s)) s
  | ClearHistory => withApp (clearHistoryClick (app s)) s
  | Reset now =>
      mkSys (resetExperience now (app s)) (hgen s) (nextReq s) (inflight s)
        (intervals s) (timeouts s ++ [ClearPrompt]) (apiCalls s)
  | SourceSettles req o =>
      match requestOf req s with
      | Some (ProductRequest id index) =>
          mkSys
            (handleGenerateProduct_resume id index (generateSourceImage o)
               (app s))
            (hgen s) (nextReq s) (dropRequest req (inflight s)) (intervals s)
            (timeouts s) (apiCalls s)
      | Some RoomRequest =>
          mkSys (handleGenerateRoom_resume (generateSourceImage o) (app s))
            (hgen s) (nextReq s) (dropRequest req (inflight s)) (intervals s)
            (timeouts s) (apiCalls s)
      | _ => s
      end
  | CompositeSettles req o1 o2 =>
      match requestOf req s with
      | Some (CompositeRequest r) =>
          let '(result, calls) := generateVisual (generateVisualParamsOf r) o1 o2 in
          let '(a, scheduled) := handleGeneration_resume result (app s) in
          mkSys (simulateProgress_finally a) (hgen s) (nextReq s)
            (dropRequest req (inflight s))
            (clearIntervals req (intervals s))
            (timeouts s ++ (if scheduled then [SaveToHistory r] else []) ++
               [HideProgress])
            (apiCalls s ++ drop 1 calls)
      | _ => s
      end
  | ProgressTicks req random =>
      if hasProgressInterval req (intervals s)
      then withApp (progressTick random (app s)) s
      else s
  | StatusTicks req =>
      match statusIndexOf req (intervals s) with
      | Some statusIndex =>
          mkSys (statusTick statusIndex (app s)) (hgen s) (nextReq s)
            (inflight s) (bumpStatus req (intervals s)) (timeouts s)
            (apiCalls s)
      | None => s
      end
  | TimeoutFires k nowId nowTs =>
      match timeouts s !! k with
      | Some t =>
          let a :=
            match t with
            | SaveToHistory r => saveToHistoryOf r nowId nowTs (app s)
            | HideProgress => setShowLoadingProgress false (app s)
            | ClearPrompt => setPrompt "" (app s)
            end in
          mkSys a (hgen s) (nextReq s) (inflight s) (intervals s)
            (delete k (timeouts s)) (apiCalls s)
      | None => s
      end
  end.

(** The render after an event: [useCallback] keeps the old
    [handleGeneration] unless one of [prompt, roomImage, products,
    generatedImage, isInitialGeneration] changed.  React compares the
    [products] array by identity, so it also renews the closure when a
    handler stores a new array with the same contents; the two closures
    then read the same session fields and can differ in the cursor
    only. *)
Definition rerender (s : Sys) : Sys :=
  mkSys (app s)
    (if decide (currentStateOf (hgen s) = currentStateOf (app s))
     then hgen s else app s)
    (nextReq s) (inflight s) (intervals s) (timeouts s) (apiCalls s).

Definition step (s : Sys) (ev : Event) : Sys := rerender (handle s ev).

Definition run (s : Sys) (evs : list Event) : Sys := fold_left step evs s.

Definition initialSys (now : Z) : Sys :=
  mkSys (initialApp now) (initialApp now) 0 [] [] [] [].

End WithConstants.

(** The first candidate of a response has a part with image data. *)
Definition hasImagePart (response : Response) : bool :=
  match candidates response with
  | [] => false
  | ps :: _ => existsb (fun part => truthy (inlineData part)) ps
  end.

(** ** Scenarios

    Concrete runs of the page, from its first render at time [0] with no
    default scene.  Each run uploads the scene and the product image
    itself, and edits the prompt right before it submits, so that the
    closure of [handleGeneration] is the one of that render.  Every
    event of a run is one the page offers in the state it is in. *)

Definition imageResponse (data : string) : ApiOutcome :=
  Responds (mkResponse [[mkPart (Some data) None]] None).

Definition room0 : string := "data:image/png;base64,ROOM".
Definition chair0 : string := "data:image/png;base64,CHAIR".

(** A first composite: inputs, prompt, submit, the service answers with
    an image, then the 100 ms timer fires. *)
Definition firstComposite : list Event :=
  [ UploadRoom room0;
    UploadProduct "prod-0" chair0;
    PromptChange "place the chair";
    Submit;
    CompositeSettles 0 (imageResponse "AAAA") (Throws NonError);
    TimeoutFires 0 1000 1000 ].

(** Then the 500 ms timer, and a refinement with its own two timers. *)
Definition thenRefinement : list Event :=
  firstComposite ++
  [ TimeoutFires 0 0 0;
    PromptChange "make it darker";
    Submit;
    CompositeSettles 1 (imageResponse "BBBB") (Throws NonError);
    TimeoutFires 0 2000 2000;
    TimeoutFires 0 0 0 ].

(** A product generation that stays in flight across a first composite
    and a refinement, and settles before a second refinement; then undo. *)
Definition undoRevivesBusy : list Event :=
  [ UploadRoom room0;
    UploadProduct "prod-0" chair0;
    GenerateProduct "prod-0" "a red chair" 0;
    PromptChange "place the chair";
    Submit;
    CompositeSettles 1 (imageResponse "AAAA") (Throws NonError);
    TimeoutFires 0 1000 1000;
    TimeoutFires 0 0 0;
    PromptChange "make it darker";
    Submit;
    CompositeSettles 2 (imageResponse "BBBB") (Throws NonError);
    TimeoutFires 0 2000 2000;
    TimeoutFires 0 0 0;
    SourceSettles 0 (imageResponse "REDCHAIR");
    PromptChange "make it brighter";
    Submit;
    CompositeSettles 3 (imageResponse "CCCC") (Throws NonError);
    TimeoutFires 0 3000 3000;
    TimeoutFires 0 0 0;
    Undo ].



Definition scenario (evs : list Event) : Sys := run None (initialSys None 0) evs.


(** Two commits into the empty store, and a committable session. *)
Definition someSession : CurrentState.t :=
  CurrentState.mk (Some "data:image/png;base64,AAAA") "" (Some room0)
    [Product.mk "prod-0" (Some chair0) false] false.


Definition twoCommits : Store :=
  saveFrom 3 someSession 0 2 2 (saveFrom 3 someSession (-1) 1 1 emptyStore).

(** The page once the first composite request is out, and the render
    that its [handleGeneration] closed over. *)
Definition compositeOut : Sys := scenario (take 4 firstComposite).
Definition compositeOutClosure : App.t := app (scenario (take 3 firstComposite)).

(** The page of [undoRevivesBusy] right before the undo. *)
Definition beforeUndo : App.t := app (scenario (take 19 undoRevivesBusy)).

(** ** Busy flags and requests in flight *)






(** Request ids are handed out once. *)
Definition freshIds (s : Sys) : Prop :=
  Forall (fun x => (fst x < nextReq s)%nat) (inflight s) /\
  NoDup (map fst (inflight s)).


(** The shape of the hook state: at most [maxHistorySize] entries, and
    the cursor is [-1] on the empty array and an index into it otherwise. *)
Definition storeInv (maxHistorySize : nat) (st : Store) : Prop :=
  (length (history st) <= maxHistorySize)%nat /\
  ((history st = [] /\ currentIndex st = -1) \/
   0 <= currentIndex st < Z.of_nat (length (history st))).



(** ** Further definitions

    Iterated undo and redo; [dataUrlToGeminiPart] of [utils/fileUtils.ts]
    (the [inlineData] wrapper of its result is left out); predicates on
    responses, product lists and page states used by the properties of
    the last part. *)

Definition undoTimes (k : nat) (st : Store) : Store :=
  Nat.iter k (fun st => fst (undo st)) st.
Definition redoTimes (k : nat) (st : Store) : Store :=
  Nat.iter k (fun st => fst (redo st)) st.

Fixpoint dropStr (n : nat) (s : string) : string :=
  match n, s with
  | O, _ => s
  | S n, String _ s' => dropStr n s'
  | S _, EmptyString => EmptyString
  end.

(** The text before the first occurrence of [sep] in [s], and the text
    after it when there is one. *)
Fixpoint breakOn (sep s : string) : string * option string :=
  if String.prefix sep s then (EmptyString, Some (dropStr (String.length sep) s))
  else
    match s with
    | EmptyString => (EmptyString, None)
    | String c s' =>
        let '(before, after) := breakOn sep s' in (String c before, after)
    end.

(** [s.split(sep)[0]] and [s.split(sep)[1]] for a non-empty [sep]. *)
Definition splitFirst (sep s : string) : string := fst (breakOn sep s).
Definition splitSecond (sep s : string) : option string :=
  (fun rest => fst (breakOn sep rest)) <$> snd (breakOn sep s).

Record GeminiPart := mkGeminiPart {
  mimeType : option string;
  data : option string
}.

Definition dataUrlToGeminiPart (dataUrl : string) : GeminiPart :=
  let parts0 := splitFirst ";base64," dataUrl in
  mkGeminiPart (splitSecond ":" parts0) (splitSecond ";base64," dataUrl).

Fixpoint hasChar (c : ascii) (s : string) : bool :=
  match s with
  | EmptyString => false
  | String c' s' => Ascii.eqb c' c || hasChar c s'
  end.

Definition noImage (part : Part) : Prop := truthy (inlineData part) = false.

(** [data] is the image data of the first part of [ps] that has any. *)
Definition firstImageIs (data : string) (ps : list Part) : Prop :=
  exists pre part post,
    ps = pre ++ part :: post /\ Forall noImage pre /\
    inlineData part = Some data /\ truthyStr data = true.

(** [data] is the image data of the last part of [ps] that has any. *)
Definition lastImageIs (data : string) (ps : list Part) : Prop :=
  exists pre part post,
    ps = pre ++ part :: post /\ Forall noImage post /\
    inlineData part = Some data /\ truthyStr data = true.

Definition firstCandidate (response : Response) : list Part :=
  match candidates response with
  | [] => []
  | ps :: _ => ps
  end.

Definition hasId (id : string) (ps : list Product.t) : bool :=
  existsb (fun p => String.eqb (Product.id p) id) ps.

(** What the settling of a product request makes of one product. *)
Definition settledProduct (id : string) (result : Settled string)
    (p : Product.t) : Product.t :=
  if String.eqb (Product.id p) id then
    Product.mk (Product.id p)
      (match result with
       | Resolved image => Some image
       | Rejected _ => Product.image p
       end)
      false
  else p.

(** INITIAL mode with no composite, or REFINEMENT mode with one. *)
Definition modeOk (a : App.t) : Prop :=
  (App.isInitialGeneration a = true /\ App.generatedImage a = None) \/
  (App.isInitialGeneration a = false /\ truthy (App.generatedImage a) = true).

Definition snapshotOk (state : HistoryState.t) : Prop :=
  HistoryState.isInitialGeneration state = false /\
  truthy (HistoryState.generatedImage state) = true.

Definition requestOk (x : nat * Request) : Prop :=
  match snd x with
  | CompositeRequest r => modeOk r
  | _ => True
  end.

Definition timeoutOk (t : Timeout) : Prop :=
  match t with
  | SaveToHistory r => modeOk r
  | _ => True
  end.

Definition pageOk (s : Sys) : Prop :=
  modeOk (app s) /\ modeOk (hgen s) /\
  Forall snapshotOk (history (App.store (app s))) /\
  Forall requestOk (inflight s) /\
  Forall timeoutOk (timeouts s).

Definition callsService (ev : Event) : bool :=
  match ev with
  | GenerateProduct _ _ _ | GenerateRoom _ | Submit | CompositeSettles _ _ _ =>
      true
  | _ => false
  end.

(** ** Further instances *)


Definition twoImages : Response :=
  mkResponse
    [[mkPart (Some "AAAA") None; mkPart None (Some "a note");
      mkPart (Some "BBBB") None]]
    None.

(** The page of [firstComposite] right before the submit, and the page
    of [undoRevivesBusy] once the product request is out. *)
Definition beforeSubmit : Sys := scenario (take 3 firstComposite).
Definition productOut : Sys := scenario (take 3 undoRevivesBusy).

(** * Theorems *)

(** ** History store *)

Lemma limitSize_lastN K (x : list HistoryState.t) s :
  limitSize K (lastN K x ++ [s]) = lastN K (x ++ [s]).
Proof.
  unfold limitSize, lastN. rewrite !length_app, length_drop. simpl.
  destruct (Nat.ltb_spec K (length x - (length x - K) + 1)%nat) as [H|H].
  - rewrite <- drop_app_le by lia.
    rewrite drop_drop. f_equal. lia.
  - replace (length x - K)%nat with 0%nat by lia.
    replace (length x + 1 - K)%nat with 0%nat by lia.
    by rewrite !drop_0.
Qed.

Lemma lastN_short {A} K (x : list A) : (length x <= K)%nat -> lastN K x = x.
Proof.
  intros H. unfold lastN. replace (length x - K)%nat with 0%nat by lia.
  apply drop_0.
Qed.

Lemma limitSize_short K (x : list HistoryState.t) s :
  (length x <= K)%nat -> limitSize K (x ++ [s]) = lastN K (x ++ [s]).
Proof.
  intros H. rewrite <- (lastN_short K x H) at 1. apply limitSize_lastN.
Qed.

Lemma lastN_length {A} K (x : list A) : (length (lastN K x) <= K)%nat.
Proof. unfold lastN. rewrite length_drop. lia. Qed.



Lemma spliceAfter_length c h : (length (spliceAfter c h) <= length h)%nat.
Proof.
  unfold spliceAfter. destruct (0 <=? c); [|lia].
  rewrite length_take. lia.
Qed.

Lemma saveFrom_commitable K cs c nowId nowTs st :
  truthy (CurrentState.generatedImage cs) = true ->
  saveFrom K cs c nowId nowTs st =
  let h := limitSize K (spliceAfter c (history st) ++ [newState cs nowId nowTs]) in
  mkStore h (Z.of_nat (length h) - 1).
Proof.
  intros H. unfold saveFrom, saveToHistory. by rewrite H.
Qed.







Lemma saveFrom_inv K cs c nowId nowTs st :
  storeInv K st -> storeInv K (saveFrom K cs c nowId nowTs st).
Proof.
  intros [Hlen Hcur].
  destruct (truthy (CurrentState.generatedImage cs)) eqn:Hg.
  - rewrite saveFrom_commitable by exact Hg. cbv zeta.
    pose proof (spliceAfter_length c (history st)) as Hs.
    rewrite limitSize_short by lia.
    split; simpl; [apply lastN_length|].
    destruct (lastN K _) as [|x xs] eqn:E; [left; done|].
    right. change (length (x :: xs)) with (S (length xs)). lia.
  - unfold saveFrom, saveToHistory. rewrite Hg. simpl. by split.
Qed.

Lemma reachable_inv K st : reachable K st -> storeInv K st.
Proof.
  induction 1 as [|st cs c nowId nowTs _ IH|st _ IH|st _ IH|st _ IH].
  - split; simpl; [lia|by left].
  - by apply saveFrom_inv.
  - destruct IH as [Hlen Hcur]. unfold undo.
    destruct (Z.ltb_spec 0 (currentIndex st)) as [Hlt|Hge]; simpl.
    + split; [exact Hlen|]. right. simpl. destruct Hcur as [[_ ?]|?]; lia.
    + by split.
  - destruct IH as [Hlen Hcur]. unfold redo.
    destruct (Z.ltb_spec (currentIndex st) (Z.of_nat (length (history st)) - 1))
      as [Hlt|Hge]; simpl.
    + split; [exact Hlen|]. right. simpl.
      destruct Hcur as [[E ?]|?]; [rewrite E in Hlt; simpl in Hlt; lia|lia].
    + by split.
  - split; simpl; [lia|by left].
Qed.

Lemma entryAt_Some h i :
  0 <= i < Z.of_nat (length h) -> exists snap, entryAt h i = Some snap.
Proof.
  intros Hi. unfold entryAt.
  destruct (Z.ltb_spec i 0) as [?|_]; [lia|].
  destruct (lookup_lt_is_Some_2 h (Z.to_nat i)) as [snap Hs]; [lia|].
  by exists snap.
Qed.


(** A [saveToHistory] whose closure captured an older cursor truncates
    at that cursor: from a render that saw the cursor on [A], a commit
    into [A,B] drops [B]. *)
Lemma saveFrom_older_cursor A B cs nowId nowTs :
  truthy (CurrentState.generatedImage cs) = true ->
  saveFrom 3 cs 0 nowId nowTs (mkStore [A; B] 1) =
    mkStore [A; newState cs nowId nowTs] 1.
Proof. intros H. by rewrite saveFrom_commitable. Qed.



(** ** Restoring a snapshot *)

Lemma copyProduct_id p : copyProduct p = p.
Proof. by destruct p. Qed.

Lemma newState_products cs nowId nowTs :
  HistoryState.products (newState cs nowId nowTs) = CurrentState.products cs.
Proof.
  simpl. rewrite <- (map_id (CurrentState.products cs)) at 2.
  apply map_ext. apply copyProduct_id.
Qed.

Lemma onStateRestore_fields state s :
  let s' := onStateRestore state s in
  App.generatedImage s' = HistoryState.generatedImage state /\
  App.prompt s' = HistoryState.prompt state /\
  App.roomImage s' = HistoryState.roomImage state /\
  App.products s' = HistoryState.products state /\
  App.isInitialGeneration s' = HistoryState.isInitialGeneration state /\
  App.error s' = None /\
  App.store s' = App.store s.
Proof. by repeat split. Qed.

(** C10. In a reachable store state, an enabled undo (redo) moves the
    cursor one entry back (forward) and overwrites the five session
    fields with those of the entry now under the cursor: composite,
    prompt, scene, mode and the whole product list with the busy flags it
    holds; the error is cleared.  The product list of a snapshot is the
    list that [saveToHistory] copied, flags included. *)
Theorem restore_overwrites_session (s : App.t) :
  reachable maxHistorySize (App.store s) ->
  let h := history (App.store s) in
  let i := currentIndex (App.store s) in
  (canUndo (App.store s) = true ->
   exists state, entryAt h (i - 1) = Some state /\
     let s' := undoClick s in
     App.store s' = mkStore h (i - 1) /\
     App.generatedImage s' = HistoryState.generatedImage state /\
     App.prompt s' = HistoryState.prompt state /\
     App.roomImage s' = HistoryState.roomImage state /\
     App.products s' = HistoryState.products state /\
     App.isInitialGeneration s' = HistoryState.isInitialGeneration state /\
     App.error s' = None) /\
  (canRedo (App.store s) = true ->
   exists state, entryAt h (i + 1) = Some state /\
     let s' := redoClick s in
     App.store s' = mkStore h (i + 1) /\
     App.generatedImage s' = HistoryState.generatedImage state /\
     App.prompt s' = HistoryState.prompt state /\
     App.roomImage s' = HistoryState.roomImage state /\
     App.products s' = HistoryState.products state /\
     App.isInitialGeneration s' = HistoryState.isInitialGeneration state /\
     App.error s' = None) /\
  (forall cs nowId nowTs,
     let state := newState cs nowId nowTs in
     HistoryState.products state = CurrentState.products cs /\
     HistoryState.generatedImage state = CurrentState.generatedImage cs /\
     HistoryState.prompt state = CurrentState.prompt cs /\
     HistoryState.roomImage state = CurrentState.roomImage cs /\
     HistoryState.isInitialGeneration state =
       CurrentState.isInitialGeneration cs).
Proof.
  intros Hr h i. apply reachable_inv in Hr as [Hlen Hcur].
  fold h i in Hcur. split; [|split].
  - intros Hu. unfold canUndo in Hu. fold i in Hu. apply Z.ltb_lt in Hu.
    destruct Hcur as [[_ ?]|Hcur]; [lia|].
    destruct (entryAt_Some h (i - 1)) as [state Hs]; [lia|].
    exists state. split; [exact Hs|].
    unfold undoClick, undo. fold i h.
    destruct (Z.ltb_spec 0 i) as [_|?]; [|lia].
    rewrite Hs. by repeat split.
  - intros Hu. unfold canRedo in Hu. fold i h in Hu. apply Z.ltb_lt in Hu.
    assert (0 <= i + 1 < Z.of_nat (length h)) as Hi.
    { destruct Hcur as [[_ ?]|Hcur]; lia. }
    destruct (entryAt_Some h (i + 1) Hi) as [state Hs].
    exists state. split; [exact Hs|].
    unfold redoClick, redo. fold i h.
    destruct (Z.ltb_spec i (Z.of_nat (length h) - 1)) as [_|?]; [|lia].
    rewrite Hs. by repeat split.
  - intros cs nowId nowTs. split; [apply newState_products|done].
Qed.

(** ** Validation and the service *)

Lemma truthyStr_false s : truthyStr s = false <-> s = "".
Proof.
  unfold truthyStr. rewrite negb_false_iff. apply String.eqb_eq.
Qed.

Lemma scanParts_image ps : forall acc,
  truthy (fst (fold_left
    (fun acc part =>
       if truthy (inlineData part) then (inlineData part, snd acc)
       else if truthy (text part) then (fst acc, text part)
       else acc) ps acc)) =
  truthy (fst acc) || existsb (fun part => truthy (inlineData part)) ps.
Proof.
  induction ps as [|part ps IH]; intros acc; simpl.
  - by rewrite orb_false_r.
  - rewrite IH. destruct (truthy (inlineData part)) eqn:E; simpl.
    + rewrite E. by rewrite orb_true_r.
    + by destruct (truthy (text part)).
Qed.

Lemma scanResponse_image response :
  truthy (fst (scanResponse response)) = hasImagePart response.
Proof.
  unfold scanResponse, hasImagePart.
  destruct (candidates response) as [|ps ?]; [done|].
  unfold scanParts. by rewrite scanParts_image.
Qed.



(** ** Busy flags *)














Section Properties.

Variable INITIAL_ROOM_IMAGE : option string.

Local Abbreviation step := (step INITIAL_ROOM_IMAGE).
Local Abbreviation handle := (handle INITIAL_ROOM_IMAGE).

(** C6. When the render that [handleGeneration] closed over is in
    INITIAL mode and lacks a scene image, or has no product with an
    image, or has an empty prompt, the handler only stores an error
    message: no request is sent, the list of service calls and the
    requests in flight are unchanged.  Missing inputs give one message, a
    missing prompt alone gives another, and the two differ. *)
Theorem handleGeneration_rejects_incomplete (s : Sys) :
  App.isInitialGeneration (hgen s) = true ->
  truthy (App.roomImage (hgen s)) = false \/
    validProducts (hgen s) = [] \/ App.prompt (hgen s) = "" ->
  exists msg,
    handleGeneration (hgen s) (app s) = (setError (Some msg) (app s), None) /\
    app (step s Submit) = setError (Some msg) (app s) /\
    apiCalls (step s Submit) = apiCalls s /\
    inflight (step s Submit) = inflight s /\
    (truthy (App.roomImage (hgen s)) = false \/ validProducts (hgen s) = [] ->
     msg = msgMissingInputs) /\
    (truthy (App.roomImage (hgen s)) = true -> validProducts (hgen s) <> [] ->
     msg = msgMissingPrompt) /\
    msgMissingInputs <> msgMissingPrompt.
Proof.
  intros Hmode Hbad.
  assert (exists msg, validate (hgen s) = Some msg /\
            (truthy (App.roomImage (hgen s)) = false \/
               validProducts (hgen s) = [] -> msg = msgMissingInputs) /\
            (truthy (App.roomImage (hgen s)) = true ->
               validProducts (hgen s) <> [] -> msg = msgMissingPrompt))
    as [msg [Hv [H1 H2]]].
  { unfold validate. rewrite Hmode. simpl.
    destruct (truthy (App.roomImage (hgen s))) eqn:Hroom; simpl.
    - destruct (validProducts (hgen s)) as [|p ps] eqn:Hp; simpl.
      + exists msgMissingInputs. split; [done|]. split; [done|].
        by intros _ ?.
      + destruct Hbad as [?|[?|Hprompt]]; [done|done|].
        rewrite Hprompt. simpl. exists msgMissingPrompt.
        split; [done|]. split; [|done]. by intros [?|?].
    - exists msgMissingInputs. split; [done|]. split; done. }
  exists msg. unfold step, handle, handleGeneration. rewrite Hv. simpl.
  repeat split; done.
Qed.





End Properties.

(** ** The progress estimator *)



Section Progress.

Variable INITIAL_ROOM_IMAGE : option string.

Local Abbreviation step := (step INITIAL_ROOM_IMAGE).
Local Abbreviation handle := (handle INITIAL_ROOM_IMAGE).


End Progress.

(** ** The running page *)

Lemma restoreWith_store (f : Store -> Store * option (option HistoryState.t)) s :
  App.store (restoreWith (f (App.store s)) s) = fst (f (App.store s)) \/
  App.store (restoreWith (f (App.store s)) s) = App.store s.
Proof.
  unfold restoreWith. destruct (f (App.store s)) as [st [[state|]|]]; simpl;
    auto.
Qed.

Lemma handle_reachable room s ev :
  reachable maxHistorySize (App.store (app s)) ->
  reachable maxHistorySize (App.store (app (handle room s ev))).
Proof.
  intros H. destruct ev; simpl.
  - unfold handlePromptChange. by destruct (truthy (App.error (app s))).
  - done.
  - done.
  - done.
  - done.
  - unfold handleGenerateProduct. by destruct (negb (truthyStr genPrompt)).
  - unfold handleGenerateRoom. by destruct (negb (truthyStr genPrompt)).
  - unfold handleGeneration. by destruct (validate (hgen s)).
  - unfold undoClick.
    destruct (restoreWith_store undo (app s)) as [-> | ->];
      [by apply reach_undo|done].
  - unfold redoClick.
    destruct (restoreWith_store redo (app s)) as [-> | ->];
      [by apply reach_redo|done].
  - by apply reach_clear.
  - by apply (reach_clear _ (App.store (app s))).
  - destruct (requestOf req s) as [[id index| |r]|]; simpl; try done.
    + unfold handleGenerateProduct_resume.
      by destruct (generateSourceImage o).
    + unfold handleGenerateRoom_resume. by destruct (generateSourceImage o).
  - destruct (requestOf req s) as [[id index| |r]|]; simpl; try done.
    destruct (generateVisual (generateVisualParamsOf r) o1 o2)
      as [result calls].
    unfold handleGeneration_resume. destruct result as [result|e]; simpl;
      [|done].
    by destruct (truthy (res_image result)).
  - by destruct (hasProgressInterval req (intervals s)).
  - by destruct (statusIndexOf req (intervals s)).
  - destruct (timeouts s !! k) as [[r| |]|]; simpl; try done.
    by apply reach_save.
Qed.

Lemma run_reachable room evs : forall s,
  reachable maxHistorySize (App.store (app s)) ->
  reachable maxHistorySize (App.store (app (run room s evs))).
Proof.
  induction evs as [|ev evs IH]; intros s H; [done|].
  simpl. apply IH. unfold step. simpl. by apply handle_reachable.
Qed.

(** After every event, the closure kept for [handleGeneration] sees the
    session fields of the live state. *)
Lemma closure_sees_session room s ev :
  currentStateOf (hgen (step room s ev)) = currentStateOf (app (step room s ev)).
Proof.
  unfold step, rerender. simpl.
  by destruct (decide (currentStateOf (hgen (handle room s ev)) =
                       currentStateOf (app (handle room s ev)))).
Qed.

(** The guards of [handleGeneration] read session fields only, so on the
    closure they decide as they would on the live state. *)
Lemma validate_deps r r' :
  currentStateOf r = currentStateOf r' -> validate r = validate r'.
Proof.
  destruct r, r'. unfold currentStateOf, validate, validProducts. simpl.
  by intros [= -> -> -> -> ->].
Qed.

Lemma validate_closure room s ev :
  validate (hgen (step room s ev)) = validate (app (step room s ev)).
Proof. apply validate_deps, closure_sees_session. Qed.

(** ** The commit after a generation *)

(** C1. What the code does on a first composite and on a refinement that
    follows it.  After the first success the session holds the new
    composite, an empty prompt and REFINEMENT mode, but the commit that
    the timer runs is the [saveToHistory] of the render that submitted:
    it sees no composite and stores nothing.  After the refinement the
    session holds the second composite and an empty prompt, while the one
    snapshot stored holds the first composite and the prompt that was
    submitted. *)
Theorem generation_commit_sees_submitting_render :
  let s1 := app (scenario firstComposite) in
  let s2 := app (scenario thenRefinement) in
  (App.generatedImage s1 = Some "data:image/png;base64,AAAA" /\
   App.prompt s1 = "" /\
   App.isInitialGeneration s1 = false /\
   history (App.store s1) = [] /\
   timeouts (scenario firstComposite) = [HideProgress]) /\
  (App.generatedImage s2 = Some "data:image/png;base64,BBBB" /\
   App.prompt s2 = "" /\
   App.isInitialGeneration s2 = false /\
   map (fun h => (HistoryState.generatedImage h, HistoryState.prompt h))
     (history (App.store s2)) =
     [(Some "data:image/png;base64,AAAA", "make it darker")] /\
   timeouts (scenario thenRefinement) = []).
Proof. vm_compute. by repeat split. Qed.

(** ** Concrete instances *)




Lemma restore_overwrites_session_witness :
  reachable maxHistorySize (App.store beforeUndo) /\
  canUndo (App.store beforeUndo) = true /\
  exists state,
    entryAt (history (App.store beforeUndo))
      (currentIndex (App.store beforeUndo) - 1) = Some state /\
    App.products (undoClick beforeUndo) = HistoryState.products state /\
    App.error (undoClick beforeUndo) = None.
Proof.
  assert (reachable maxHistorySize (App.store beforeUndo)) as H
    by (apply run_reachable, reach_init).
  split; [exact H|]. split; [reflexivity|].
  destruct (restore_overwrites_session beforeUndo H) as [Hu _].
  destruct (Hu eq_refl) as (state & Hs & _ & _ & _ & _ & Hp & _ & He).
  exists state. by repeat split.
Defined.

Lemma handleGeneration_rejects_incomplete_witness :
  App.isInitialGeneration (hgen (initialSys None 0)) = true /\
  exists msg,
    app (step None (initialSys None 0) Submit) =
      setError (Some msg) (app (initialSys None 0)) /\
    apiCalls (step None (initialSys None 0) Submit) = [].
Proof.
  split; [reflexivity|].
  destruct (handleGeneration_rejects_incomplete None (initialSys None 0)
              eq_refl (or_introl eq_refl))
    as (msg & _ & Ha & Hc & _).
  exists msg. by split.
Defined.




(** ** Where the words of the spec and the code part *)




(** * Further properties *)

Lemma entryAt_Some_iff h i :
  (exists snap, entryAt h i = Some snap) <-> 0 <= i < Z.of_nat (length h).
Proof.
  split; [|apply entryAt_Some].
  intros [snap H]. unfold entryAt in H.
  destruct (Z.ltb_spec i 0) as [?|Hi]; [done|].
  apply lookup_lt_Some in H. lia.
Qed.

(** X1. In every reachable store state the history holds at most
    [maxHistorySize] entries; [hasHistory] is false exactly when the
    cursor is [-1], and true exactly when the cursor stands on an entry;
    [canUndo] ([canRedo]) is true exactly when there is an entry right
    before (after) the cursor. *)
Theorem store_shape (K : nat) (st : Store) :
  reachable K st ->
  (length (history st) <= K)%nat /\
  (hasHistory st = false <-> currentIndex st = -1) /\
  (hasHistory st = true <->
     exists snap, entryAt (history st) (currentIndex st) = Some snap) /\
  (canUndo st = true <->
     exists snap, entryAt (history st) (currentIndex st - 1) = Some snap) /\
  (canRedo st = true <->
     exists snap, entryAt (history st) (currentIndex st + 1) = Some snap).
Proof.
  intros Hr. apply reachable_inv in Hr as [Hlen Hcur].
  unfold hasHistory, canUndo, canRedo. rewrite !entryAt_Some_iff.
  rewrite Nat.ltb_lt, !Z.ltb_lt. split; [exact Hlen|].
  destruct (0 <? length (history st))%nat eqn:E.
  - apply Nat.ltb_lt in E.
    destruct Hcur as [[Hh _]|Hcur]; [rewrite Hh in E; simpl in E; lia|].
    repeat split; try done; try lia.
  - apply Nat.ltb_ge in E.
    destruct Hcur as [[Hh Hc]|Hcur]; [|lia].
    repeat split; try done; try lia.
Qed.


Lemma undoTimes_spec k : forall st,
  undoTimes k st =
    mkStore (history st)
      (Z.max (Z.min (currentIndex st) 0) (currentIndex st - Z.of_nat k)).
Proof.
  induction k as [|k IH]; intros st.
  - simpl. destruct st as [h i]. simpl. f_equal. lia.
  - unfold undoTimes in *. rewrite Nat.iter_succ. rewrite IH. unfold undo.
    cbn [currentIndex history].
    destruct (Z.ltb_spec 0
      (Z.max (Z.min (currentIndex st) 0) (currentIndex st - Z.of_nat k)));
      simpl; f_equal; lia.
Qed.

Lemma redoTimes_spec k : forall st,
  currentIndex st <= Z.of_nat (length (history st)) - 1 ->
  redoTimes k st =
    mkStore (history st)
      (Z.min (Z.of_nat (length (history st)) - 1) (currentIndex st + Z.of_nat k)).
Proof.
  induction k as [|k IH]; intros st Hle.
  - simpl. destruct st as [h i]. simpl in *. f_equal. lia.
  - unfold redoTimes in *. rewrite Nat.iter_succ. rewrite IH by exact Hle.
    unfold redo. cbn [currentIndex history].
    destruct (Z.ltb_spec
      (Z.min (Z.of_nat (length (history st)) - 1) (currentIndex st + Z.of_nat k))
      (Z.of_nat (length (history st)) - 1)); simpl; f_equal; lia.
Qed.

(** X3. From a reachable store state, [k] undos in a row move the cursor
    [k] entries back but not below the first entry, and [k] redos move it
    [k] forward but not past the last; the history is untouched, and
    after as many undos (redos) as there are entries, undo (redo) is
    disabled. *)
Theorem undo_redo_saturate (K : nat) (st : Store) (k : nat) :
  reachable K st ->
  undoTimes k st =
    mkStore (history st)
      (Z.max (Z.min (currentIndex st) 0) (currentIndex st - Z.of_nat k)) /\
  redoTimes k st =
    mkStore (history st)
      (Z.min (Z.of_nat (length (history st)) - 1)
             (currentIndex st + Z.of_nat k)) /\
  canUndo (undoTimes (length (history st)) st) = false /\
  canRedo (redoTimes (length (history st)) st) = false.
Proof.
  intros Hr. apply reachable_inv in Hr as [Hlen Hcur].
  assert (currentIndex st <= Z.of_nat (length (history st)) - 1) as Hle.
  { destruct Hcur as [[-> ->]|?]; simpl; lia. }
  rewrite !undoTimes_spec, !redoTimes_spec by exact Hle.
  repeat split; unfold canUndo, canRedo; simpl.
  - apply Z.ltb_ge. destruct Hcur as [[Hh Hc]|?]; lia.
  - apply Z.ltb_ge. destruct Hcur as [[Hh Hc]|?]; [rewrite Hh; simpl|]; lia.
Qed.

Lemma limitSize_sub K h :
  forall x, x ∈ limitSize K h -> x ∈ h.
Proof.
  intros x. unfold limitSize. destruct (K <? length h)%nat; [|done].
  intros H. by apply (subseteq_drop 1 h).
Qed.

Lemma spliceAfter_sub c h : forall x, x ∈ spliceAfter c h -> x ∈ h.
Proof.
  intros x. unfold spliceAfter. destruct (0 <=? c); [|done].
  intros H. by apply (subseteq_take (Z.to_nat (c + 1)) h).
Qed.

Lemma saveFrom_Forall (P : HistoryState.t -> Prop) K cs c nowId nowTs st :
  Forall P (history st) ->
  (truthy (CurrentState.generatedImage cs) = true -> P (newState cs nowId nowTs)) ->
  Forall P (history (saveFrom K cs c nowId nowTs st)).
Proof.
  intros Hh Hnew.
  destruct (truthy (CurrentState.generatedImage cs)) eqn:Hg.
  - rewrite saveFrom_commitable by exact Hg. cbv zeta. simpl.
    apply Forall_forall. intros x Hx. apply limitSize_sub in Hx.
    apply elem_of_app in Hx as [Hx|Hx].
    + apply spliceAfter_sub in Hx. rewrite Forall_forall in Hh. by apply Hh.
    + apply list_elem_of_singleton in Hx. subst x. by apply Hnew.
  - unfold saveFrom, saveToHistory. by rewrite Hg.
Qed.

(** X4. Whatever closure [saveToHistory] is called from, every snapshot
    in a reachable store carries a composite image (not null, not
    empty). *)
Theorem snapshots_have_composite (K : nat) (st : Store) :
  reachable K st ->
  Forall (fun state => truthy (HistoryState.generatedImage state) = true)
    (history st).
Proof.
  induction 1 as [|st cs c nowId nowTs _ IH|st _ IH|st _ IH|st _ IH].
  - constructor.
  - by apply saveFrom_Forall.
  - unfold undo. by destruct (0 <? currentIndex st).
  - unfold redo. by destruct (currentIndex st <? _).
  - constructor.
Qed.

(** X5. A [saveToHistory] that passes its guard, from the closure of any
    render and with a capacity of at least one, ends with the new
    snapshot as last entry and the cursor on it: redo is disabled, and
    the history has grown by one entry at most. *)
Theorem save_moves_cursor_to_new_entry (K : nat) (cs : CurrentState.t)
    (captured nowId nowTs : Z) (st : Store) :
  (0 < K)%nat ->
  truthy (CurrentState.generatedImage cs) = true ->
  let st' := saveFrom K cs captured nowId nowTs st in
  last (history st') = Some (newState cs nowId nowTs) /\
  entryAt (history st') (currentIndex st') = Some (newState cs nowId nowTs) /\
  canRedo st' = false /\
  hasHistory st' = true /\
  (length (history st') <= S (length (history st)))%nat.
Proof.
  intros HK Hg st'. subst st'. rewrite saveFrom_commitable by exact Hg.
  cbv zeta. set (x := spliceAfter captured (history st)).
  pose proof (spliceAfter_length captured (history st)) as Hx. fold x in Hx.
  assert (exists y, limitSize K (x ++ [newState cs nowId nowTs]) =
                    y ++ [newState cs nowId nowTs] /\
                    (length y <= length x)%nat) as (y & -> & Hy).
  { unfold limitSize. rewrite length_app. simpl.
    destruct (Nat.ltb_spec K (length x + 1)) as [H|H]; [|by exists x].
    destruct x as [|z x']; [simpl in H; lia|]. exists x'. simpl.
    split; [by rewrite drop_0|lia]. }
  simpl. rewrite length_app. simpl. repeat split.
  - apply last_snoc.
  - unfold entryAt.
    destruct (Z.ltb_spec (Z.of_nat (length y + 1) - 1) 0) as [?|_]; [lia|].
    replace (Z.to_nat (Z.of_nat (length y + 1) - 1)) with (length y) by lia.
    by rewrite list_lookup_middle.
  - unfold canRedo. simpl. rewrite length_app. simpl. apply Z.ltb_irrefl.
  - unfold hasHistory. simpl. rewrite length_app. simpl.
    apply Nat.ltb_lt. lia.
  - lia.
Qed.

Lemma prefix_append sep rest : String.prefix sep (sep +:+ rest) = true.
Proof.
  induction sep as [|a sep IH]; simpl; [by destruct rest|].
  destruct (ascii_dec a a); [exact IH|congruence].
Qed.

Lemma dropStr_append sep rest : dropStr (String.length sep) (sep +:+ rest) = rest.
Proof. induction sep as [|a sep IH]; simpl; [by destruct rest|exact IH]. Qed.

Lemma hasChar_append c s t : hasChar c (s +:+ t) = hasChar c s || hasChar c t.
Proof.
  induction s as [|a s IH]; simpl; [done|]. rewrite IH. by rewrite orb_assoc.
Qed.

Lemma breakOn_at c0 sep' b rest :
  hasChar c0 b = false ->
  breakOn (String c0 sep') (b +:+ String c0 sep' +:+ rest) = (b, Some rest).
Proof.
  induction b as [|a b IH]; intros Hb.
  - change (EmptyString +:+ String c0 sep' +:+ rest)
      with (String c0 sep' +:+ rest).
    destruct (String c0 sep' +:+ rest) eqn:E; [done|].
    unfold breakOn; fold breakOn. rewrite <- E.
    rewrite prefix_append, dropStr_append. done.
  - simpl in Hb. apply orb_false_elim in Hb as [Hac Hb].
    change (String a b +:+ String c0 sep' +:+ rest)
      with (String a (b +:+ String c0 sep' +:+ rest)).
    unfold breakOn; fold breakOn. simpl String.prefix.
    destruct (ascii_dec c0 a) as [->|_]; [by rewrite Ascii.eqb_refl in Hac|].
    by rewrite (IH Hb).
Qed.

Lemma breakOn_none c0 sep' b :
  hasChar c0 b = false -> breakOn (String c0 sep') b = (b, None).
Proof.
  induction b as [|a b IH]; intros Hb; [done|].
  simpl in Hb. apply orb_false_elim in Hb as [Hac Hb].
  unfold breakOn; fold breakOn. simpl String.prefix.
  destruct (ascii_dec c0 a) as [->|_]; [by rewrite Ascii.eqb_refl in Hac|].
  by rewrite (IH Hb).
Qed.

Lemma breakOn_before_sub c sep s :
  hasChar c s = false -> hasChar c (fst (breakOn sep s)) = false.
Proof.
  induction s as [|a s IH]; intros Hs.
  - unfold breakOn. by destruct (String.prefix sep "").
  - unfold breakOn; fold breakOn.
    destruct (String.prefix sep (String a s)); [done|].
    simpl in Hs. apply orb_false_elim in Hs as [Ha Hs].
    specialize (IH Hs). destruct (breakOn sep s) as [b r]. simpl in *.
    by rewrite Ha, IH.
Qed.

(** X6. [dataUrlToGeminiPart] takes a data URL apart: for
    [data:<mime>;base64,<payload>], with no [;] or [:] in the mime type
    and no [;] in the payload, it gives back the mime type and the
    payload; so it does for the PNG data URLs the service functions
    build.  A string with no [;] gives no data, one with no [:] gives no
    mime type. *)
Theorem dataUrlToGeminiPart_roundtrip :
  (forall mime payload,
     hasChar ";" mime = false -> hasChar ":" mime = false ->
     hasChar ";" payload = false ->
     dataUrlToGeminiPart ("data:" +:+ mime +:+ ";base64," +:+ payload) =
       mkGeminiPart (Some mime) (Some payload)) /\
  (forall payload,
     hasChar ";" payload = false ->
     dataUrlToGeminiPart ("data:image/png;base64," +:+ payload) =
       mkGeminiPart (Some "image/png") (Some payload)) /\
  (forall dataUrl,
     hasChar ";" dataUrl = false -> data (dataUrlToGeminiPart dataUrl) = None) /\
  (forall dataUrl,
     hasChar ":" dataUrl = false ->
     mimeType (dataUrlToGeminiPart dataUrl) = None).
Proof.
  assert (forall mime payload,
     hasChar ";" mime = false -> hasChar ":" mime = false ->
     hasChar ";" payload = false ->
     dataUrlToGeminiPart ("data:" +:+ mime +:+ ";base64," +:+ payload) =
       mkGeminiPart (Some mime) (Some payload)) as Hround.
  { intros mime payload Hm1 Hm2 Hp.
    assert (breakOn ";base64," ("data:" +:+ mime +:+ ";base64," +:+ payload) =
            ("data:" +:+ mime, Some payload)) as H1.
    { change ("data:" +:+ mime +:+ ";base64," +:+ payload)
        with (("data:" +:+ mime) +:+ ";base64," +:+ payload).
      apply breakOn_at. rewrite hasChar_append, Hm1. done. }
    pose proof (breakOn_none ";" "base64," payload Hp) as H2.
    pose proof (breakOn_at ":" "" "data" mime eq_refl) as H3.
    change ("data" +:+ ":" +:+ mime) with ("data:" +:+ mime) in H3.
    pose proof (breakOn_none ":" "" mime Hm2) as H4.
    unfold dataUrlToGeminiPart, splitFirst, splitSecond.
    rewrite H1. cbn [fst snd fmap option_fmap option_map].
    rewrite H2, H3. cbn [fst snd fmap option_fmap option_map].
    by rewrite H4. }
  split; [exact Hround|]. split; [|split].
  - intros payload Hp. by apply (Hround "image/png" payload).
  - intros dataUrl H. unfold dataUrlToGeminiPart, splitSecond. simpl.
    by rewrite (breakOn_none _ _ dataUrl H).
  - intros dataUrl H. unfold dataUrlToGeminiPart, splitSecond, splitFirst.
    simpl.
    rewrite (breakOn_none ":" "" _ (breakOn_before_sub ":" _ dataUrl H)).
    done.
Qed.

Lemma firstImage_spec ps :
  match firstImage ps with
  | Some data => firstImageIs data ps
  | None => Forall noImage ps
  end.
Proof.
  induction ps as [|part ps IH]; simpl; [constructor|].
  destruct (truthy (inlineData part)) eqn:E.
  - destruct (inlineData part) as [data|] eqn:Ed; [|done].
    exists [], part, ps. by repeat split.
  - destruct (firstImage ps) as [data|].
    + destruct IH as (pre & q & post & -> & Hpre & Hq & Ht).
      exists (part :: pre), q, post. repeat split; try done.
      by constructor.
    + by constructor.
Qed.

Lemma hasImagePart_false response :
  hasImagePart response = false <-> Forall noImage (firstCandidate response).
Proof.
  unfold hasImagePart, firstCandidate.
  destruct (candidates response) as [|ps ?]; [split; [constructor|done]|].
  induction ps as [|part ps IH]; simpl; [split; [constructor|done]|].
  rewrite orb_false_iff, IH. split.
  - intros [? ?]. by constructor.
  - intros H. by inversion H.
Qed.

(** X7. [generateSourceImage] resolves only with a non-empty PNG data URL
    made of the first image data of the first candidate; in every other
    case it rejects with an [Error] (never another thrown value): the
    service's message behind 'Gemini API Error: ', the fixed message for
    a thrown non-error, or the fixed no-image message. *)
Theorem generateSourceImage_outcomes (o : ApiOutcome) :
  match generateSourceImage o with
  | Resolved url =>
      exists response data,
        o = Responds response /\
        firstImageIs data (firstCandidate response) /\
        url = "data:image/png;base64," +:+ data /\
        truthyStr url = true
  | Rejected e =>
      (exists message, e = ErrorObj message /\ truthyStr message = true) /\
      match o with
      | Throws (ErrorObj message) =>
          e = ErrorObj ("Gemini API Error: " +:+ message)
      | Throws NonError =>
          e = ErrorObj "An unknown error occurred while generating the image."
      | Responds response =>
          hasImagePart response = false /\
          e = ErrorObj "Gemini API Error: Image generation failed: The API did not return image data."
      end
  end.
Proof.
  destruct o as [[message|]|response]; simpl.
  - split; [|done]. by eexists.
  - split; [|done]. by eexists.
  - unfold firstCandidate, hasImagePart.
    destruct (candidates response) as [|ps rest] eqn:Ec; simpl.
    + split; [by eexists|done].
    + pose proof (firstImage_spec ps) as H.
      destruct (firstImage ps) as [data|].
      * exists response, data. rewrite Ec. by repeat split.
      * split; [by eexists|]. split; [|done].
        clear Ec. induction H as [|part ps' Hp _ IH]; [done|].
        simpl. unfold noImage in Hp. by rewrite Hp.
Qed.

Lemma scanParts_acc ps : forall i t,
  (i = None \/ truthy i = true) -> (t = None \/ truthy t = true) ->
  let r := fold_left
    (fun acc part =>
       if truthy (inlineData part) then (inlineData part, snd acc)
       else if truthy (text part) then (fst acc, text part)
       else acc) ps (i, t) in
  (fst r = None \/ truthy (fst r) = true) /\
  (snd r = None \/ truthy (snd r) = true).
Proof.
  induction ps as [|part ps IH]; intros i t Hi Ht; simpl; [done|].
  destruct (truthy (inlineData part)) eqn:E; [apply IH; auto|].
  destruct (truthy (text part)) eqn:E'; apply IH; auto.
Qed.

Lemma scanResponse_truthy response :
  let r := scanResponse response in
  (fst r = None \/ truthy (fst r) = true) /\
  (snd r = None \/ truthy (snd r) = true).
Proof.
  unfold scanResponse. destruct (candidates response) as [|ps ?]; simpl;
    [auto|].
  apply scanParts_acc; auto.
Qed.

Lemma scanParts_last ps : forall i t,
  let r := fold_left
    (fun acc part =>
       if truthy (inlineData part) then (inlineData part, snd acc)
       else if truthy (text part) then (fst acc, text part)
       else acc) ps (i, t) in
  (Forall noImage ps /\ fst r = i) \/
  (exists data, fst r = Some data /\ lastImageIs data ps).
Proof.
  induction ps as [|part ps IH]; intros i t; simpl; [left; by split|].
  destruct (truthy (inlineData part)) eqn:E.
  - destruct (IH (inlineData part) (snd (i, t))) as [[Hall Hr]|(data & Hr & Hl)].
    + right. destruct (inlineData part) as [data|] eqn:Ed; [|done].
      exists data. split; [exact Hr|].
      exists [], part, ps. by repeat split.
    + right. exists data. split; [exact Hr|].
      destruct Hl as (pre & q & post & -> & Hpost & Hq & Ht).
      exists (part :: pre), q, post. by repeat split.
  - assert (forall t',
      (Forall noImage (part :: ps) /\
       fst (fold_left
         (fun acc part =>
            if truthy (inlineData part) then (inlineData part, snd acc)
            else if truthy (text part) then (fst acc, text part)
            else acc) ps (i, t')) = i) \/
      (exists data,
         fst (fold_left
           (fun acc part =>
              if truthy (inlineData part) then (inlineData part, snd acc)
              else if truthy (text part) then (fst acc, text part)
              else acc) ps (i, t')) = Some data /\
         lastImageIs data (part :: ps))) as Hstep.
    { intros t'. destruct (IH i t') as [[Hall Hr]|(data & Hr & Hl)].
      - left. split; [by constructor|exact Hr].
      - right. exists data. split; [exact Hr|].
        destruct Hl as (pre & q & post & -> & Hpost & Hq & Ht).
        exists (part :: pre), q, post. by repeat split. }
    destruct (truthy (text part)); apply Hstep.
Qed.

(** X8. When the multimodal response has image data, [generateVisual]
    resolves with the last image data of the first candidate and makes
    that one call only: the text-only request is not sent, whatever the
    service would answer to it. *)
Theorem generateVisual_first_stage_wins (p : GenerateVisualParams)
    (response1 : Response) (o2 : ApiOutcome) :
  hasImagePart response1 = true ->
  exists image,
    lastImageIs image (firstCandidate response1) /\
    generateVisual p (Responds response1) o2 =
      (Resolved (mkResult (Some image) (snd (scanResponse response1))),
       [multimodal_call p]).
Proof.
  intros H. unfold generateVisual, multimodalStage.
  pose proof (scanResponse_image response1) as Hs. rewrite H in Hs.
  unfold scanResponse, firstCandidate, hasImagePart in *.
  destruct (candidates response1) as [|ps rest]; [done|].
  unfold scanParts in *.
  destruct (scanParts_last ps None None) as [[Hall Hr]|(data & Hr & Hl)].
  - rewrite Hr in Hs. done.
  - exists data. split; [exact Hl|].
    destruct (fold_left _ ps (None, None)) as [i t]. simpl in *. subst i.
    by rewrite Hs.
Qed.

Lemma generateVisual_settles (p : GenerateVisualParams) (o1 o2 : ApiOutcome) :
  match fst (generateVisual p o1 o2) with
  | Resolved r =>
      truthy (res_image r) = true \/
      (res_image r = None /\ truthy (res_text r) = true)
  | Rejected e =>
      exists message, e = ErrorObj message /\ truthyStr message = true
  end.
Proof.
  unfold generateVisual.
  destruct (multimodalStage o1) as [r|] eqn:E1; simpl.
  - left. destruct o1 as [e|response]; [done|]. simpl in E1.
    destruct (scanResponse response) as [i t].
    destruct (truthy i) eqn:Ei; [|done]. injection E1 as <-. done.
  - destruct o2 as [[message|]|response]; simpl; [by eexists|by eexists|].
    pose proof (scanResponse_truthy response) as [Hi Ht].
    destruct (scanResponse response) as [i t]. simpl in *.
    destruct (truthy i) eqn:Ei; simpl; [by left|].
    destruct Hi as [->|?]; [|congruence].
    destruct (truthy t) eqn:Et; simpl; [by right|].
    destruct (promptFeedback response) as [fb|]; [|by right].
    destruct (truthy (blockReason fb)); [by eexists|by right].
Qed.

(** X9. [generateVisual] settles in one of three ways: it resolves with an
    image, or it resolves with no image and a non-empty text, or it
    rejects with an [Error] that has a non-empty message. *)
Theorem generateVisual_outcomes (p : GenerateVisualParams) (o1 o2 : ApiOutcome) :
  match fst (generateVisual p o1 o2) with
  | Resolved r =>
      truthy (res_image r) = true \/
      (res_image r = None /\ truthy (res_text r) = true)
  | Rejected e =>
      exists message, e = ErrorObj message /\ truthyStr message = true
  end.
Proof. apply generateVisual_settles. Qed.

Lemma flat_map_valid ps :
  flat_map imagePart
    (map Product.image (List.filter (fun p => truthy (Product.image p)) ps)) =
  flat_map (fun p => imagePart (Product.image p)) ps /\
  length (flat_map (fun p => imagePart (Product.image p)) ps) =
  length (List.filter (fun p => truthy (Product.image p)) ps).
Proof.
  induction ps as [|p ps [IH1 IH2]]; [done|]. simpl.
  destruct (Product.image p) as [i|] eqn:E; simpl.
  - destruct (truthyStr i) eqn:Et; simpl.
    + rewrite E. simpl. rewrite Et. simpl. by rewrite IH1, IH2.
    + by split.
  - by split.
Qed.

(** X10. For a render that passes the guards of [handleGeneration], the
    prompt is not empty and the multimodal request holds, in REFINEMENT
    mode, the composite and the prompt and nothing else; in INITIAL mode
    the scene, then the image of every product that has one, in order,
    then the prompt, with at least one product image. *)
Theorem composite_request_parts (r : App.t) :
  validate r = None ->
  let parts := multimodalParts (generateVisualParamsOf r) in
  truthyStr (App.prompt r) = true /\
  (App.isInitialGeneration r = false ->
   exists composite,
     App.generatedImage r = Some composite /\
     parts = [InlineImage composite; TextPart (App.prompt r)]) /\
  (App.isInitialGeneration r = true ->
   exists room,
     App.roomImage r = Some room /\
     parts = InlineImage room ::
             flat_map (fun p => imagePart (Product.image p)) (App.products r)
             ++ [TextPart (App.prompt r)] /\
     length parts = (2 + length (validProducts r))%nat /\
     validProducts r <> []).
Proof.
  intros Hv. cbv zeta.
  unfold validate, multimodalParts, generateVisualParamsOf in *. simpl.
  destruct (App.isInitialGeneration r) eqn:Hmode; simpl in *.
  - destruct (truthy (App.roomImage r)) eqn:Hroom; simpl in Hv; [|done].
    destruct (validProducts r) as [|v vs] eqn:Hvp; simpl in Hv; [done|].
    destruct (truthyStr (App.prompt r)) eqn:Hp; simpl in Hv; [|done].
    split; [done|]. split; [done|]. intros _.
    destruct (App.roomImage r) as [room|]; [|done]. simpl in Hroom.
    exists room. split; [done|].
    assert (imagePart (Some room) = [InlineImage room]) as ->
      by (unfold imagePart; by rewrite Hroom).
    unfold validProducts in *.
    destruct (flat_map_valid (App.products r)) as [H1 H2].
    rewrite <- Hvp, H1. split; [done|]. split; [|by rewrite Hvp].
    rewrite !length_app, H2. simpl. lia.
  - destruct (truthy (App.generatedImage r)) eqn:Hg; simpl in Hv; [|done].
    destruct (truthyStr (App.prompt r)) eqn:Hp; simpl in Hv; [|done].
    split; [done|]. split; [|done]. intros _.
    destruct (App.generatedImage r) as [g|]; [|done]. simpl in Hg.
    exists g. split; [done|]. unfold imagePart. by rewrite Hg.
Qed.

(** Products addressed by an id that none carries. *)
Lemma map_missing_id (f : Product.t -> Product.t) id ps :
  hasId id ps = false ->
  map (fun p => if String.eqb (Product.id p) id then f p else p) ps = ps.
Proof.
  induction ps as [|p ps IH]; [done|]. simpl. intros H.
  apply orb_false_elim in H as [Hp H]. rewrite Hp. by rewrite IH.
Qed.

Lemma filter_missing_id id ps :
  hasId id ps = false ->
  List.filter (fun p => negb (String.eqb (Product.id p) id)) ps = ps.
Proof.
  induction ps as [|p ps IH]; [done|]. simpl. intros H.
  apply orb_false_elim in H as [Hp H]. rewrite Hp. simpl. by rewrite IH.
Qed.

Lemma setProducts_same s : setProducts (App.products s) s = s.
Proof. by destruct s. Qed.

(** X11. For an id that no product carries, an upload, a removal and a
    product request that resolves leave the state as it is, and a product
    request that starts or fails leaves the product list as it is. *)
Theorem unknown_id_changes_nothing (id : string) (s : App.t) :
  hasId id (App.products s) = false ->
  (forall image, handleUpdateProductImage id image s = s) /\
  handleRemoveProduct id s = s /\
  (forall index image,
     handleGenerateProduct_resume id index (Resolved image) s = s) /\
  (forall index e,
     App.products (handleGenerateProduct_resume id index (Rejected e) s) =
       App.products s) /\
  (forall genPrompt index,
     App.products (fst (handleGenerateProduct id genPrompt index s)) =
       App.products s).
Proof.
  intros H.
  assert (forall image, handleUpdateProductImage id image s = s) as Hup.
  { intros image. unfold handleUpdateProductImage.
    rewrite (map_missing_id _ id _ H). apply setProducts_same. }
  assert (forall s', App.products s' = App.products s ->
            App.products (setGenerating id false s') = App.products s) as Hf.
  { intros s' E. unfold setGenerating. simpl. rewrite E.
    apply (map_missing_id _ id _ H). }
  split; [exact Hup|]. split; [|split; [|split]].
  - unfold handleRemoveProduct. rewrite (filter_missing_id id _ H).
    apply setProducts_same.
  - intros index image. unfold handleGenerateProduct_resume. rewrite Hup.
    unfold setGenerating. rewrite (map_missing_id _ id _ H).
    apply setProducts_same.
  - intros index e. unfold handleGenerateProduct_resume. by apply Hf.
  - intros genPrompt index. unfold handleGenerateProduct.
    destruct (negb (truthyStr genPrompt)); [done|]. simpl.
    apply (map_missing_id _ id _ H).
Qed.

(** X12. [handleAddProduct] appends an empty, idle product whose id comes
    from the clock; removing that id gives the former state back when no
    product carried it before.  Two products added within the same
    millisecond share their id: one removal removes both, and one upload
    sets the image of both. *)
Theorem add_then_remove (now : Z) (s : App.t) :
  hasId ("prod-" +:+ pretty now) (App.products s) = false ->
  let id := "prod-" +:+ pretty now in
  App.products (handleAddProduct now s) =
    App.products s ++ [Product.mk id None false] /\
  handleRemoveProduct id (handleAddProduct now s) = s /\
  handleRemoveProduct id (handleAddProduct now (handleAddProduct now s)) = s /\
  (forall image,
     App.products
       (handleUpdateProductImage id image
          (handleAddProduct now (handleAddProduct now s))) =
     App.products s ++
       [Product.mk id (Some image) false; Product.mk id (Some image) false]).
Proof.
  intros H id. subst id. split; [done|].
  assert (forall extra,
    Forall (fun p => String.eqb (Product.id p) ("prod-" +:+ pretty now) = true)
      extra ->
    List.filter
      (fun p => negb (String.eqb (Product.id p) ("prod-" +:+ pretty now)))
      (App.products s ++ extra) = App.products s) as Hfilter.
  { intros extra Hex. rewrite List.filter_app, (filter_missing_id _ _ H).
    rewrite <- (app_nil_r (App.products s)) at 2. f_equal.
    induction Hex as [|p ps Hp _ IH]; [done|]. simpl. by rewrite Hp. }
  split; [|split].
  - unfold handleRemoveProduct, handleAddProduct. simpl.
    rewrite Hfilter; [by destruct s|].
    constructor; [apply String.eqb_refl|constructor].
  - unfold handleRemoveProduct, handleAddProduct. simpl.
    rewrite <- app_assoc. rewrite Hfilter; [by destruct s|].
    repeat constructor; apply String.eqb_refl.
  - intros image. unfold handleUpdateProductImage, handleAddProduct. simpl.
    rewrite <- app_assoc, map_app, (map_missing_id _ _ _ H). simpl.
    by rewrite String.eqb_refl.
Qed.

Lemma resume_products id index result s :
  App.products (handleGenerateProduct_resume id index result s) =
    map (settledProduct id result) (App.products s).
Proof.
  unfold handleGenerateProduct_resume, setGenerating, settledProduct.
  destruct result as [image|e]; simpl.
  - rewrite map_map. apply map_ext. intros p.
    destruct (String.eqb (Product.id p) id) eqn:E; simpl; by rewrite ?E.
  - done.
Qed.

(** X13. Two product requests for different ids may settle in either
    order: the product list is the same, each product of one id carries
    the outcome of its own request, and every other product is
    untouched. *)
Theorem product_requests_do_not_interfere (id1 id2 : string)
    (index1 index2 : nat) (r1 r2 : Settled string) (s : App.t) :
  id1 <> id2 ->
  App.products
    (handleGenerateProduct_resume id1 index1 r1
       (handleGenerateProduct_resume id2 index2 r2 s)) =
  App.products
    (handleGenerateProduct_resume id2 index2 r2
       (handleGenerateProduct_resume id1 index1 r1 s)) /\
  App.products
    (handleGenerateProduct_resume id1 index1 r1
       (handleGenerateProduct_resume id2 index2 r2 s)) =
  map (fun p =>
         if String.eqb (Product.id p) id1 then settledProduct id1 r1 p
         else if String.eqb (Product.id p) id2 then settledProduct id2 r2 p
         else p)
      (App.products s).
Proof.
  intros Hne. rewrite !resume_products, !map_map.
  split; apply map_ext; intros p; unfold settledProduct;
    destruct (String.eqb (Product.id p) id1) eqn:E1;
    destruct (String.eqb (Product.id p) id2) eqn:E2;
    simpl; rewrite ?E1, ?E2; try done.
  all: apply String.eqb_eq in E1, E2; congruence.
Qed.

Lemma images_after_failure id ps :
  map Product.image
    (map (fun p => if String.eqb (Product.id p) id
                   then Product.mk (Product.id p) (Product.image p) false
                   else p) ps) = map Product.image ps /\
  map Product.id
    (map (fun p => if String.eqb (Product.id p) id
                   then Product.mk (Product.id p) (Product.image p) false
                   else p) ps) = map Product.id ps.
Proof.
  rewrite !map_map. split; apply map_ext; intros p;
    by destruct (String.eqb (Product.id p) id).
Qed.

Section PageExtras.

Variable INITIAL_ROOM_IMAGE : option string.

Local Abbreviation step := (step INITIAL_ROOM_IMAGE).
Local Abbreviation handle := (handle INITIAL_ROOM_IMAGE).
Local Abbreviation run := (run INITIAL_ROOM_IMAGE).

(** X14. When a product or scene request fails, every image, id, the
    prompt, the composite, the mode and the history stay as they were,
    and the error names the product by its position or the room, followed
    by the message of the failure. *)
Theorem source_failure_keeps_images (s : Sys) (req : nat) (o : ApiOutcome)
    (e : Thrown) :
  generateSourceImage o = Rejected e ->
  let s' := step s (SourceSettles req o) in
  (forall id index,
     requestOf req s = Some (ProductRequest id index) ->
     map Product.image (App.products (app s')) =
       map Product.image (App.products (app s)) /\
     map Product.id (App.products (app s')) =
       map Product.id (App.products (app s)) /\
     App.error (app s') =
       Some ("Error generating product " +:+ pretty (index + 1)%nat +:+ ": " +:+
             errorMessage e)) /\
  (requestOf req s = Some RoomRequest ->
   App.products (app s') = App.products (app s) /\
   App.error (app s') = Some ("Error generating room: " +:+ errorMessage e)) /\
  App.roomImage (app s') = App.roomImage (app s) /\
  App.generatedImage (app s') = App.generatedImage (app s) /\
  App.prompt (app s') = App.prompt (app s) /\
  App.isInitialGeneration (app s') = App.isInitialGeneration (app s) /\
  App.store (app s') = App.store (app s).
Proof.
  intros Ho s'. subst s'. unfold step, handle.
  destruct (requestOf req s) as [[id index| |r]|] eqn:E; rewrite ?Ho; simpl.
  - split; [|by repeat split].
    intros id' index' [= <- <-].
    destruct (images_after_failure id (App.products (app s))) as [H1 H2].
    by repeat split.
  - by repeat split.
  - by repeat split.
  - by repeat split.
Qed.

(** X15. When a composite request settles without an image, the five
    session fields and the history are untouched, [isLoading] is cleared
    and no history commit is scheduled.  The error shown is the text the
    service returned (never empty), or 'Error: ' followed by the message
    of the failure. *)
Theorem composite_failure_keeps_session (s : Sys) (req : nat) (r : App.t)
    (o1 o2 : ApiOutcome) :
  requestOf req s = Some (CompositeRequest r) ->
  (forall image text,
     fst (generateVisual (generateVisualParamsOf r) o1 o2) <>
       Resolved (mkResult (Some image) text)) ->
  let s' := step s (CompositeSettles req o1 o2) in
  currentStateOf (app s') = currentStateOf (app s) /\
  App.store (app s') = App.store (app s) /\
  App.isLoading (app s') = false /\
  timeouts s' = timeouts s ++ [HideProgress] /\
  match fst (generateVisual (generateVisualParamsOf r) o1 o2) with
  | Resolved result =>
      res_image result = None /\ truthy (res_text result) = true /\
      App.error (app s') = res_text result
  | Rejected e =>
      exists message,
        e = ErrorObj message /\ App.error (app s') = Some ("Error: " +:+ message)
  end.
Proof.
  intros E Hno s'. subst s'. unfold step, handle. rewrite E.
  pose proof (generateVisual_settles (generateVisualParamsOf r) o1 o2) as Hout.
  destruct (generateVisual (generateVisualParamsOf r) o1 o2) as [result calls].
  simpl in Hno, Hout. destruct result as [[image text]|e].
  - destruct Hout as [Hi|[Hi Ht]]; simpl in *.
    + destruct image as [image|]; [|done]. by destruct (Hno image text).
    + subst image. unfold handleGeneration_resume. simpl. rewrite Ht. simpl.
      destruct text as [text|]; [|done]. by repeat split.
  - destruct Hout as (message & -> & _). simpl.
    repeat split. by exists message.
Qed.

Lemma statusIndexOf_bump req l :
  statusIndexOf req (bumpStatus req l) = S <$> statusIndexOf req l.
Proof.
  unfold statusIndexOf, bumpStatus.
  induction l as [|i l IH]; [done|]. simpl.
  destruct i as [r|r n]; simpl; [exact IH|].
  destruct (Nat.eqb r req) eqn:Er; simpl; rewrite Er; [done|exact IH].
Qed.

Lemma status_ticks (req : nat) (k : nat) : forall s n,
  statusIndexOf req (intervals s) = Some n ->
  App.loadingStatus (app (run s (repeat (StatusTicks req) (S k)))) =
    default "Finalizing..." (statusMessages !! (n + k)%nat) /\
  statusIndexOf req (intervals (run s (repeat (StatusTicks req) (S k)))) =
    Some (n + S k)%nat /\
  App.loadingProgress (app (run s (repeat (StatusTicks req) (S k)))) =
    App.loadingProgress (app s) /\
  currentStateOf (app (run s (repeat (StatusTicks req) (S k)))) =
    currentStateOf (app s).
Proof.
  induction k as [|k IH]; intros s n Hn.
  - simpl. unfold step, handle. rewrite Hn. simpl.
    rewrite statusIndexOf_bump, Hn. simpl.
    rewrite Nat.add_0_r. split; [done|]. split; [|done]. f_equal. lia.
  - change (run s (repeat (StatusTicks req) (S (S k))))
      with (run (step s (StatusTicks req)) (repeat (StatusTicks req) (S k))).
    assert (statusIndexOf req (intervals (step s (StatusTicks req))) =
              Some (S n) /\
            App.loadingProgress (app (step s (StatusTicks req))) =
              App.loadingProgress (app s) /\
            currentStateOf (app (step s (StatusTicks req))) =
              currentStateOf (app s)) as (Hn' & Hp & Hc).
    { unfold step, handle. rewrite Hn. simpl.
      by rewrite statusIndexOf_bump, Hn. }
    destruct (IH _ _ Hn') as (H1 & H2 & H3 & H4).
    rewrite H1, H2, H3, H4, Hp, Hc. repeat split.
    + do 2 f_equal. lia.
    + f_equal. lia.
Qed.

(** X16. The status timer of a request shows the fixed messages in order,
    one per tick, and 'Finalizing...' from the seventh tick on; its ticks
    change neither the progress value nor the session. *)
Theorem status_cycles_then_finalizes (s : Sys) (req n k : nat) :
  statusIndexOf req (intervals s) = Some n ->
  let s' := run s (repeat (StatusTicks req) (S k)) in
  (forall message, statusMessages !! (n + k)%nat = Some message ->
     App.loadingStatus (app s') = message) /\
  ((6 <= n + k)%nat -> App.loadingStatus (app s') = "Finalizing...") /\
  statusIndexOf req (intervals s') = Some (n + S k)%nat /\
  App.loadingProgress (app s') = App.loadingProgress (app s) /\
  currentStateOf (app s') = currentStateOf (app s).
Proof.
  intros Hn s'. subst s'.
  destruct (status_ticks req k s n Hn) as (H1 & H2 & H3 & H4).
  rewrite H1, H2, H3, H4. repeat split.
  - intros message Hm. by rewrite Hm.
  - intros Hk. rewrite (lookup_ge_None_2 statusMessages (n + k)); [done|].
    simpl. lia.
Qed.

End PageExtras.

Lemma entryAt_elem h i state : entryAt h i = Some state -> state ∈ h.
Proof.
  unfold entryAt. destruct (i <? 0); [done|]. apply list_elem_of_lookup_2.
Qed.

Lemma modeOk_same a b :
  App.isInitialGeneration a = App.isInitialGeneration b ->
  App.generatedImage a = App.generatedImage b -> modeOk b -> modeOk a.
Proof. unfold modeOk. by intros -> ->. Qed.

Lemma restoreWith_ok f s :
  (history (fst (f (App.store s))) = history (App.store s)) ->
  (forall state, snd (f (App.store s)) = Some (Some state) ->
     state ∈ history (App.store s)) ->
  modeOk s -> Forall snapshotOk (history (App.store s)) ->
  modeOk (restoreWith (f (App.store s)) s) /\
  Forall snapshotOk (history (App.store (restoreWith (f (App.store s)) s))).
Proof.
  intros Hh Hin Hm Hs. unfold restoreWith.
  destruct (f (App.store s)) as [st [[state|]|]]; simpl in *.
  - rewrite Hh. split; [|exact Hs]. right.
    rewrite Forall_forall in Hs. by apply Hs, Hin.
  - rewrite Hh. by split.
  - by split.
Qed.

Lemma undo_history st : history (fst (undo st)) = history st.
Proof. unfold undo. by destruct (0 <? currentIndex st). Qed.

Lemma redo_history st : history (fst (redo st)) = history st.
Proof. unfold redo. by destruct (currentIndex st <? _). Qed.

Lemma undo_elem st state :
  snd (undo st) = Some (Some state) -> state ∈ history st.
Proof.
  unfold undo. destruct (0 <? currentIndex st); [|done]. simpl.
  intros [= H]. by apply entryAt_elem in H.
Qed.

Lemma redo_elem st state :
  snd (redo st) = Some (Some state) -> state ∈ history st.
Proof.
  unfold redo. destruct (currentIndex st <? _); [|done]. simpl.
  intros [= H]. by apply entryAt_elem in H.
Qed.

Lemma requestOf_elem req s r :
  requestOf req s = Some r -> exists x, x ∈ inflight s /\ snd x = r.
Proof.
  unfold requestOf. destruct (List.find _ _) as [x|] eqn:E; [|done].
  intros [= <-]. apply find_some in E as [Hin _].
  exists x. split; [by apply list_elem_of_In|done].
Qed.

Lemma dropRequest_Forall (P : nat * Request -> Prop) req l :
  Forall P l -> Forall P (dropRequest req l).
Proof.
  intros H. eapply incl_Forall; [apply incl_filter|exact H].
Qed.

Lemma handle_pageOk room s ev : pageOk s -> pageOk (handle room s ev).
Proof.
  intros (HA & HH & HS & HI & HT).
  destruct ev; simpl.
  - unfold handlePromptChange.
    destruct (truthy (App.error (app s))); by repeat split.
  - by repeat split.
  - by repeat split.
  - by repeat split.
  - by repeat split.
  - unfold handleGenerateProduct.
    destruct (negb (truthyStr genPrompt)); [by repeat split|].
    repeat split; simpl; try done.
    apply Forall_app. split; [done|]. constructor; [exact I|constructor].
  - unfold handleGenerateRoom.
    destruct (negb (truthyStr genPrompt)); [by repeat split|].
    repeat split; simpl; try done.
    apply Forall_app. split; [done|]. constructor; [exact I|constructor].
  - unfold handleGeneration.
    destruct (validate (hgen s)); [by repeat split|].
    repeat split; simpl; try done.
    apply Forall_app. split; [done|]. constructor; [exact HH|constructor].
  - destruct (restoreWith_ok undo (app s) (undo_history _)
                (undo_elem (App.store (app s))) HA HS) as [H1 H2].
    by repeat split.
  - destruct (restoreWith_ok redo (app s) (redo_history _)
                (redo_elem (App.store (app s))) HA HS) as [H1 H2].
    by repeat split.
  - repeat split; simpl; try done.
  - repeat split; simpl; try done.
    + by left.
    + apply Forall_app. split; [done|]. constructor; [exact I|constructor].
  - destruct (requestOf req s) as [[id index| |r]|]; try (by repeat split).
    + repeat split; simpl; try done.
      * unfold handleGenerateProduct_resume.
        destruct (generateSourceImage o); exact HA.
      * unfold handleGenerateProduct_resume.
        destruct (generateSourceImage o); exact HS.
      * by apply dropRequest_Forall.
    + repeat split; simpl; try done.
      * unfold handleGenerateRoom_resume.
        destruct (generateSourceImage o); exact HA.
      * unfold handleGenerateRoom_resume.
        destruct (generateSourceImage o); exact HS.
      * by apply dropRequest_Forall.
  - destruct (requestOf req s) as [[id index| |r]|] eqn:E;
      try (by repeat split).
    assert (modeOk r) as Hr.
    { apply requestOf_elem in E as (x & Hx & Hsnd).
      rewrite Forall_forall in HI. specialize (HI x Hx).
      unfold requestOk in HI. by rewrite Hsnd in HI. }
    destruct (generateVisual (generateVisualParamsOf r) o1 o2) as [result calls].
    unfold handleGeneration_resume.
    destruct result as [result|e].
    + destruct (truthy (res_image result)) eqn:Hi.
      * repeat split; simpl; try done.
        -- by right.
        -- by apply dropRequest_Forall.
        -- apply Forall_app. split; [done|].
           constructor; [exact Hr|]. constructor; [exact I|constructor].
      * repeat split; simpl; try done.
        -- by apply dropRequest_Forall.
        -- apply Forall_app. split; [done|].
           constructor; [exact I|constructor].
    + repeat split; simpl; try done.
      * by apply dropRequest_Forall.
      * apply Forall_app. split; [done|]. constructor; [exact I|constructor].
  - destruct (hasProgressInterval req (intervals s)); by repeat split.
  - destruct (statusIndexOf req (intervals s)); by repeat split.
  - destruct (timeouts s !! k) as [t|] eqn:E; [|by repeat split].
    pose proof (Forall_delete _ _ k HT) as HT'.
    destruct t as [r| |]; repeat split; simpl; try done.
    apply saveFrom_Forall; [exact HS|]. simpl. intros Hg.
    rewrite Forall_forall in HT.
    pose proof (HT _ (list_elem_of_lookup_2 _ _ _ E)) as Hr. simpl in Hr.
    destruct Hr as [[_ Hn]|[Hm _]]; [by rewrite Hn in Hg|].
    by split.
Qed.

Lemma step_pageOk room s ev : pageOk s -> pageOk (step room s ev).
Proof.
  intros H. apply (handle_pageOk room s ev) in H.
  destruct H as (HA & HH & HS & HI & HT). unfold step, rerender.
  repeat split; simpl; try done.
  by destruct (decide _).
Qed.

Lemma run_pageOk room evs : forall s, pageOk s -> pageOk (run room s evs).
Proof.
  induction evs as [|ev evs IH]; intros s H; [done|].
  simpl. by apply IH, step_pageOk.
Qed.

Lemma initialSys_pageOk room now : pageOk (initialSys room now).
Proof.
  split; [by left|]. split; [by left|]. split; [|split]; simpl; constructor.
Qed.

Lemma validate_base r : modeOk r -> validate r <> Some msgMissingBase.
Proof.
  unfold validate. intros [[Hm Hg]|[Hm Hg]]; rewrite Hm, ?Hg; simpl.
  - destruct (negb (truthy (App.roomImage r)) || _); [done|].
    by destruct (negb (truthyStr (App.prompt r))).
  - by destruct (negb (truthyStr (App.prompt r))).
Qed.

(** X17. In every state the page reaches from its first render: the mode
    is INITIAL exactly when there is no composite; the history holds at
    most three snapshots, each taken in REFINEMENT mode with a composite;
    the guard 'An initial image must be generated before you can refine
    it' never fires; and an enabled undo or redo leaves the page in
    REFINEMENT mode with a composite. *)
Theorem mode_matches_composite (room : option string) (now : Z)
    (evs : list Event) :
  let s := run room (initialSys room now) evs in
  modeOk (app s) /\
  Forall snapshotOk (history (App.store (app s))) /\
  (length (history (App.store (app s))) <= 3)%nat /\
  validate (hgen s) <> Some msgMissingBase /\
  (canUndo (App.store (app s)) = true ->
   App.isInitialGeneration (undoClick (app s)) = false /\
   truthy (App.generatedImage (undoClick (app s))) = true) /\
  (canRedo (App.store (app s)) = true ->
   App.isInitialGeneration (redoClick (app s)) = false /\
   truthy (App.generatedImage (redoClick (app s))) = true).
Proof.
  intros s.
  pose proof (run_pageOk room evs _ (initialSys_pageOk room now))
    as (HA & HH & HS & _ & _). fold s in HA, HH, HS.
  assert (reachable maxHistorySize (App.store (app s))) as Hr
    by (apply run_reachable, reach_init).
  apply reachable_inv in Hr as [Hlen Hcur].
  split; [exact HA|]. split; [exact HS|]. split; [exact Hlen|].
  split; [by apply validate_base|]. split.
  - intros Hc. unfold undoClick, undo. unfold canUndo in Hc. rewrite Hc.
    apply Z.ltb_lt in Hc.
    destruct (entryAt_Some (history (App.store (app s)))
                (currentIndex (App.store (app s)) - 1)) as [state Hst].
    { destruct Hcur as [[_ ?]|?]; lia. }
    rewrite Hst. simpl.
    apply entryAt_elem in Hst. rewrite Forall_forall in HS.
    by apply HS.
  - intros Hc. unfold redoClick, redo. unfold canRedo in Hc. rewrite Hc.
    apply Z.ltb_lt in Hc.
    destruct (entryAt_Some (history (App.store (app s)))
                (currentIndex (App.store (app s)) + 1)) as [state Hst].
    { destruct Hcur as [[_ ?]|?]; lia. }
    rewrite Hst. simpl.
    apply entryAt_elem in Hst. rewrite Forall_forall in HS.
    by apply HS.
Qed.


Lemma requestOf_fresh s r call a :
  freshIds s ->
  requestOf (nextReq s) (startRequest r call a s) = Some r.
Proof.
  intros [Hlt _]. unfold requestOf, startRequest. simpl.
  induction (inflight s) as [|x l IH]; simpl.
  - by rewrite Nat.eqb_refl.
  - inversion Hlt as [|? ? Hx Hl]; subst.
    destruct (Nat.eqb_spec (fst x) (nextReq s)) as [E|_]; [lia|].
    by apply IH.
Qed.

Lemma limitSize_last K x state :
  (0 < K)%nat -> last (limitSize K (x ++ [state])) = Some state.
Proof.
  intros HK. unfold limitSize. rewrite length_app. simpl.
  destruct (Nat.ltb_spec K (length x + 1)) as [H|H]; [|apply last_snoc].
  destruct x as [|z x']; [simpl in H; lia|]. simpl. rewrite drop_0.
  apply last_snoc.
Qed.

Lemma settle_success room s req r o1 o2 image text :
  requestOf req s = Some (CompositeRequest r) ->
  fst (generateVisual (generateVisualParamsOf r) o1 o2) =
    Resolved (mkResult (Some image) text) ->
  truthyStr image = true ->
  app (step room s (CompositeSettles req o1 o2)) =
    simulateProgress_finally
      (setIsLoading false
         (setPrompt ""
            (setIsInitialGeneration false
               (setGeneratedImage (Some ("data:image/png;base64," +:+ image))
                  (app s))))) /\
  timeouts (step room s (CompositeSettles req o1 o2)) =
    timeouts s ++ [SaveToHistory r; HideProgress] /\
  inflight (step room s (CompositeSettles req o1 o2)) =
    dropRequest req (inflight s).
Proof.
  intros E Hgv Hi. unfold step, handle. rewrite E.
  destruct (generateVisual (generateVisualParamsOf r) o1 o2) as [result calls].
  simpl in Hgv. subst result. unfold handleGeneration_resume.
  simpl res_image. simpl truthy. rewrite Hi. done.
Qed.

Ltac no_call :=
  exists []; rewrite app_nil_r;
  split; [reflexivity|split; [simpl; lia|done]].

Ltac one_call :=
  eexists [_]; split; [reflexivity|split; [simpl; lia|done]].

Section PageExtras2.

Variable INITIAL_ROOM_IMAGE : option string.

Local Abbreviation step := (step INITIAL_ROOM_IMAGE).
Local Abbreviation handle := (handle INITIAL_ROOM_IMAGE).
Local Abbreviation run := (run INITIAL_ROOM_IMAGE).


(** X19. An event makes at most one call to the service, and only a
    product, scene or composite generation (at dispatch, or when the
    multimodal stage falls back) makes any: uploads, edits, undo, redo,
    reset, ticks and timers make none. *)
Theorem service_calls_only_from_generation (s : Sys) (ev : Event) :
  exists extra,
    apiCalls (step s ev) = apiCalls s ++ extra /\
    (length extra <= 1)%nat /\
    (callsService ev = false -> extra = []).
Proof.
  unfold step. simpl.
  destruct ev; simpl; try no_call.
  - destruct (handleGenerateProduct id genPrompt index (app s)) as [a [|]];
      simpl; [one_call|no_call].
  - destruct (handleGenerateRoom genPrompt (app s)) as [a [|]];
      simpl; [one_call|no_call].
  - destruct (handleGeneration (hgen s) (app s)) as [a [p|]];
      simpl; [one_call|no_call].
  - destruct (requestOf req s) as [[id index| |r]|]; simpl; no_call.
  - destruct (requestOf req s) as [[id index| |r]|]; simpl; try no_call.
    unfold generateVisual.
    destruct (multimodalStage o1);
      destruct (handleGeneration_resume _ (app s)); simpl;
      [no_call|one_call].
  - destruct (hasProgressInterval req (intervals s)); simpl; no_call.
  - destruct (statusIndexOf req (intervals s)); simpl; no_call.
  - destruct (timeouts s !! k); simpl; no_call.
Qed.

(** X20. [resetExperience] cancels no request and no timer.  A composite
    request that was out and resolves with an image after the reset puts
    the page back in REFINEMENT mode with that image, over the default
    product list and an empty history, and schedules its commit; a scene
    request that resolves after the reset replaces the default scene. *)
Theorem reset_cancels_nothing (s : Sys) (now : Z) (req : nat) :
  let s1 := step s (Reset now) in
  inflight s1 = inflight s /\
  intervals s1 = intervals s /\
  (forall r o1 o2 image text,
     requestOf req s = Some (CompositeRequest r) ->
     fst (generateVisual (generateVisualParamsOf r) o1 o2) =
       Resolved (mkResult (Some image) text) ->
     truthyStr image = true ->
     let s2 := step s1 (CompositeSettles req o1 o2) in
     App.isInitialGeneration (app s2) = false /\
     App.generatedImage (app s2) = Some ("data:image/png;base64," +:+ image) /\
     App.products (app s2) =
       [Product.mk ("prod-" +:+ pretty now) INITIAL_PRODUCT_IMAGE false] /\
     App.store (app s2) = emptyStore /\
     timeouts s2 = timeouts s ++ [ClearPrompt; SaveToHistory r; HideProgress]) /\
  (forall o url,
     requestOf req s = Some RoomRequest ->
     generateSourceImage o = Resolved url ->
     App.roomImage (app (step s1 (SourceSettles req o))) = Some url).
Proof.
  intros s1. split; [done|]. split; [done|]. split.
  - intros r o1 o2 image text E Hgv Hi s2. subst s2.
    assert (requestOf req s1 = Some (CompositeRequest r)) as E' by exact E.
    destruct (settle_success INITIAL_ROOM_IMAGE s1 req r o1 o2 image text
                E' Hgv Hi) as (Ha & Ht & _).
    rewrite Ha, Ht. subst s1. simpl. repeat split.
    by rewrite <- app_assoc.
  - intros o url E Ho.
    assert (requestOf req s1 = Some RoomRequest) as E' by exact E.
    unfold step at 1. unfold handle at 1. rewrite E', Ho. done.
Qed.

(** X21. For any page state with fresh request ids: when a submit is
    accepted, its request resolves with an image and the 100 ms timer
    fires, the session holds the new composite and an empty prompt, and
    the store is what [saveToHistory] of the submitting render makes of
    it.  From a render without composite nothing is stored; from a render
    in REFINEMENT mode the new last entry is that render's session, whose
    composite is the base image that was sent and whose prompt is the
    prompt that was sent. *)
Theorem commit_records_submitting_render (s : Sys) (p : GenerateVisualParams)
    (o1 o2 : ApiOutcome) (image : string) (text : option string)
    (nowId nowTs : Z) :
  freshIds s ->
  snd (handleGeneration (hgen s) (app s)) = Some p ->
  fst (generateVisual p o1 o2) = Resolved (mkResult (Some image) text) ->
  truthyStr image = true ->
  let s1 := step s Submit in
  let s2 := step s1 (CompositeSettles (nextReq s) o1 o2) in
  let s3 := step s2 (TimeoutFires (length (timeouts s)) nowId nowTs) in
  App.generatedImage (app s3) = Some ("data:image/png;base64," +:+ image) /\
  App.prompt (app s3) = "" /\
  App.isInitialGeneration (app s3) = false /\
  App.store (app s3) =
    saveFrom maxHistorySize (currentStateOf (hgen s))
      (currentIndex (App.store (hgen s))) nowId nowTs (App.store (app s)) /\
  (truthy (App.generatedImage (hgen s)) = false ->
   App.store (app s3) = App.store (app s)) /\
  (App.isInitialGeneration (hgen s) = false ->
   last (history (App.store (app s3))) =
     Some (newState (currentStateOf (hgen s)) nowId nowTs) /\
   gv_baseImage p = App.generatedImage (hgen s) /\
   gv_prompt p = App.prompt (hgen s) /\
   truthyStr (App.prompt (hgen s)) = true).
Proof.
  intros Hfresh Hp Hgv Hi s1 s2 s3.
  assert (validate (hgen s) = None /\ p = generateVisualParamsOf (hgen s))
    as [Hv ->].
  { unfold handleGeneration in Hp. destruct (validate (hgen s)); [done|].
    simpl in Hp. by injection Hp as <-. }
  assert (requestOf (nextReq s) s1 = Some (CompositeRequest (hgen s)) /\
          timeouts s1 = timeouts s /\
          App.store (app s1) = App.store (app s)) as (E1 & T1 & S1).
  { subst s1. unfold step, handle, handleGeneration. rewrite Hv.
    split; [|done].
    exact (requestOf_fresh s (CompositeRequest (hgen s))
             (multimodal_call (generateVisualParamsOf (hgen s)))
             (simulateProgress (setError None (setIsLoading true (app s))))
             Hfresh). }
  destruct (settle_success INITIAL_ROOM_IMAGE s1 (nextReq s) (hgen s) o1 o2
              image text E1 Hgv Hi) as (A2 & T2 & _).
  fold s2 in A2, T2. rewrite T1 in T2.
  assert (app s3 = saveToHistoryOf (hgen s) nowId nowTs (app s2)) as A3.
  { subst s3. unfold step, handle. rewrite T2.
    rewrite (list_lookup_middle (timeouts s) [HideProgress]
               (SaveToHistory (hgen s)) _ eq_refl). done. }
  rewrite A3, A2. unfold saveToHistoryOf. cbn [App.generatedImage App.prompt
    App.isInitialGeneration App.store setStore setIsLoading setPrompt
    setIsInitialGeneration setGeneratedImage simulateProgress_finally
    setLoadingStatus setLoadingProgress].
  rewrite S1. split; [done|]. split; [done|]. split; [done|].
  split; [done|]. split.
  - intros Hg. unfold saveFrom, saveToHistory. simpl. by rewrite Hg.
  - intros Hm. unfold validate in Hv. rewrite Hm in Hv. simpl in Hv.
    destruct (truthy (App.generatedImage (hgen s))) eqn:Hg; simpl in Hv;
      [|done].
    destruct (truthyStr (App.prompt (hgen s))) eqn:Hpr; simpl in Hv; [|done].
    split; [|unfold generateVisualParamsOf; rewrite Hm; by repeat split].
    rewrite saveFrom_commitable by exact Hg. cbv zeta. simpl.
    apply limitSize_last. unfold maxHistorySize. lia.
Qed.

End PageExtras2.

(** ** Instances of the further properties *)

Lemma store_shape_witness :
  reachable 3 twoCommits /\
  (canUndo twoCommits = true <->
   exists snap,
     entryAt (history twoCommits) (currentIndex twoCommits - 1) = Some snap).
Proof.
  assert (reachable 3 twoCommits) as H
    by (apply reach_save, reach_save, reach_init).
  split; [exact H|]. apply (store_shape 3 twoCommits H).
Defined.


Lemma undo_redo_saturate_witness :
  reachable 3 twoCommits /\
  canUndo (undoTimes (length (history twoCommits)) twoCommits) = false.
Proof.
  assert (reachable 3 twoCommits) as H
    by (apply reach_save, reach_save, reach_init).
  split; [exact H|]. apply (undo_redo_saturate 3 twoCommits 5 H).
Defined.

Lemma snapshots_have_composite_witness :
  reachable 3 twoCommits /\
  Forall (fun state => truthy (HistoryState.generatedImage state) = true)
    (history twoCommits).
Proof.
  assert (reachable 3 twoCommits) as H
    by (apply reach_save, reach_save, reach_init).
  split; [exact H|]. apply (snapshots_have_composite 3 twoCommits H).
Defined.

Lemma save_moves_cursor_to_new_entry_witness :
  (0 < 3)%nat /\
  truthy (CurrentState.generatedImage someSession) = true /\
  canRedo (saveFrom 3 someSession 0 5 5 twoCommits) = false.
Proof.
  assert (0 < 3)%nat as H by lia.
  split; [exact H|]. split; [reflexivity|].
  apply (save_moves_cursor_to_new_entry 3 someSession 0 5 5 twoCommits H
           eq_refl).
Defined.

Lemma dataUrlToGeminiPart_roundtrip_witness :
  hasChar ";" "AAAA" = false /\
  dataUrlToGeminiPart "data:image/png;base64,AAAA" =
    mkGeminiPart (Some "image/png") (Some "AAAA").
Proof.
  split; [reflexivity|].
  destruct dataUrlToGeminiPart_roundtrip as (_ & H & _).
  apply (H "AAAA"). reflexivity.
Defined.

Lemma generateVisual_first_stage_wins_witness :
  hasImagePart twoImages = true /\
  exists image,
    lastImageIs image (firstCandidate twoImages) /\
    generateVisual (generateVisualParamsOf compositeOutClosure)
      (Responds twoImages) (Throws NonError) =
      (Resolved (mkResult (Some image) (snd (scanResponse twoImages))),
       [multimodal_call (generateVisualParamsOf compositeOutClosure)]).
Proof.
  split; [reflexivity|].
  apply (generateVisual_first_stage_wins
           (generateVisualParamsOf compositeOutClosure) twoImages
           (Throws NonError)).
  reflexivity.
Defined.

Lemma composite_request_parts_witness :
  validate compositeOutClosure = None /\
  truthyStr (App.prompt compositeOutClosure) = true.
Proof.
  assert (validate compositeOutClosure = None) as H by reflexivity.
  split; [exact H|]. apply (composite_request_parts compositeOutClosure H).
Defined.

Lemma unknown_id_changes_nothing_witness :
  hasId "prod-9" (App.products compositeOutClosure) = false /\
  handleRemoveProduct "prod-9" compositeOutClosure = compositeOutClosure.
Proof.
  split; [reflexivity|].
  apply (unknown_id_changes_nothing "prod-9" compositeOutClosure).
  reflexivity.
Defined.

Lemma add_then_remove_witness :
  hasId ("prod-" +:+ pretty 7) (App.products compositeOutClosure) = false /\
  handleRemoveProduct ("prod-" +:+ pretty 7)
    (handleAddProduct 7 compositeOutClosure) = compositeOutClosure.
Proof.
  split; [reflexivity|].
  apply (add_then_remove 7 compositeOutClosure). reflexivity.
Defined.

Lemma product_requests_do_not_interfere_witness :
  "prod-0" <> "prod-1" /\
  App.products
    (handleGenerateProduct_resume "prod-0" 0 (Resolved "data:image/png;base64,X")
       (handleGenerateProduct_resume "prod-1" 1 (Rejected NonError)
          compositeOutClosure)) =
  App.products
    (handleGenerateProduct_resume "prod-1" 1 (Rejected NonError)
       (handleGenerateProduct_resume "prod-0" 0
          (Resolved "data:image/png;base64,X") compositeOutClosure)).
Proof.
  assert ("prod-0" <> "prod-1") as H by discriminate.
  split; [exact H|].
  apply (product_requests_do_not_interfere "prod-0" "prod-1" 0 1
           (Resolved "data:image/png;base64,X") (Rejected NonError)
           compositeOutClosure H).
Defined.

Lemma source_failure_keeps_images_witness :
  generateSourceImage (Throws NonError) =
    Rejected (ErrorObj "An unknown error occurred while generating the image.") /\
  App.roomImage (app (step None productOut (SourceSettles 0 (Throws NonError)))) =
    App.roomImage (app productOut).
Proof.
  split; [reflexivity|].
  apply (source_failure_keeps_images None productOut 0 (Throws NonError)
           (ErrorObj "An unknown error occurred while generating the image.")
           eq_refl).
Defined.

Lemma composite_failure_keeps_session_witness :
  requestOf 0 compositeOut = Some (CompositeRequest compositeOutClosure) /\
  currentStateOf
    (app (step None compositeOut
            (CompositeSettles 0 (Throws NonError) (Throws NonError)))) =
    currentStateOf (app compositeOut).
Proof.
  assert (requestOf 0 compositeOut =
          Some (CompositeRequest compositeOutClosure)) as H by reflexivity.
  split; [exact H|].
  apply (composite_failure_keeps_session None compositeOut 0%nat
           compositeOutClosure (Throws NonError) (Throws NonError) H).
  intros image text E. discriminate E.
Defined.

Lemma status_cycles_then_finalizes_witness :
  statusIndexOf 0 (intervals compositeOut) = Some 0%nat /\
  App.loadingStatus
    (app (run None compositeOut (repeat (StatusTicks 0) 7))) = "Finalizing...".
Proof.
  split; [reflexivity|].
  apply (status_cycles_then_finalizes None compositeOut 0 0 6 eq_refl).
  lia.
Defined.

Lemma commit_records_submitting_render_witness :
  freshIds beforeSubmit /\
  App.store
    (app
       (step None
          (step None (step None beforeSubmit Submit)
             (CompositeSettles (nextReq beforeSubmit) (imageResponse "AAAA")
                (Throws NonError)))
          (TimeoutFires (length (timeouts beforeSubmit)) 1000 1000))) =
    App.store (app beforeSubmit).
Proof.
  assert (freshIds beforeSubmit) as H by (split; constructor).
  split; [exact H|].
  apply (commit_records_submitting_render None beforeSubmit
           (generateVisualParamsOf (hgen beforeSubmit))
           (imageResponse "AAAA") (Throws NonError) "AAAA" None 1000 1000 H
           eq_refl eq_refl eq_refl).
  reflexivity.
Defined.
